(** * http-flight-recorder: the control service and its codecs

    A shallow embedding of the Go package [flightrecorder]
    (flightrecorder.go and its JSON codec file) together with the
    fragments of the Go standard library the codec relies on
    ([strings], [strconv], [fmt], [time]).

    Conventions.
    - Go's [int] is the 64-bit two's-complement integer of the supported
      platforms ([strconv.IntSize = 64]); it is a [Z] and every arithmetic
      operation of the source is followed by its wrap-around.
    - Go's [string] is a sequence of bytes: Rocq's [string].
    - A Go method with a pointer receiver takes the receiver's state and
      returns the new state next to its results.
    - The mutex of the service is not modelled: every operation is taken
      as one atomic step. *)

From Stdlib Require Import ZArith List String Ascii Bool Lia.
Import ListNotations.

Local Open Scope string_scope.
Local Open Scope Z_scope.

(* ================================================================= *)
(** ** Go integers *)

Module GoInt.

Definition intSize : Z := 64.
Definition minInt : Z := - 2 ^ 63.
Definition maxInt : Z := 2 ^ 63 - 1.
Definition maxUint64 : Z := 2 ^ 64 - 1.

(** Conversion of a mathematical integer to [int] / [int64]. *)
Definition wrap (z : Z) : Z := (z + 2 ^ 63) mod 2 ^ 64 - 2 ^ 63.

(** Conversion to [uint64]. *)
Definition wrapU (z : Z) : Z := z mod 2 ^ 64.

(** Conversion to [byte]. *)
Definition wrapB (z : Z) : Z := z mod 256.

Definition add (a b : Z) : Z := wrap (a + b).
Definition mul (a b : Z) : Z := wrap (a * b).
Definition neg (a : Z) : Z := wrap (- a).

(** Go's [/] on integers truncates toward zero. *)
Definition quo (a b : Z) : Z := wrap (Z.quot a b).

Definition in_range (z : Z) : Prop := minInt <= z <= maxInt.

End GoInt.

(* ================================================================= *)
(** ** Package [strings] *)

Module strings.

Definition len (s : string) : Z := Z.of_nat (String.length s).

Definition byte_of (c : ascii) : Z := Z.of_N (N_of_ascii c).

(** [s[i:]] and [s[:i]] for [0 <= i <= len s]. *)
Definition from (i : nat) (s : string) : string :=
  substring i (String.length s - i) s.
Definition upto (i : nat) (s : string) : string :=
  substring 0 i s.

(** [len(s) >= len(suffix) && s[len(s)-len(suffix):] == suffix] *)
Definition HasSuffix (s suffix : string) : bool :=
  (String.length suffix <=? String.length s)%nat
  && String.eqb (from (String.length s - String.length suffix) s) suffix.

Definition TrimSuffix (s suffix : string) : string :=
  if HasSuffix s suffix
  then upto (String.length s - String.length suffix) s
  else s.

(** The table [asciiSpace]: tab, newline, vertical tab, form feed,
    carriage return and space. *)
Definition asciiSpace (c : Z) : bool :=
  (c =? 9) || (c =? 10) || (c =? 11) || (c =? 12) || (c =? 13) || (c =? 32).

Definition RuneSelf : Z := 128.

(** Outcome of one of the two scanning loops of [TrimSpace]. *)
Inductive scan : Type :=
| NonASCII (i : nat)   (* a byte [>= RuneSelf] met at this position *)
| Stopped (i : nat).   (* the loop ended at this position *)

(** [for ; start < len(s); start++]: [s] is the part of the string not
    yet visited and [start] the number of bytes skipped. *)
Fixpoint scan_start (s : string) (start : nat) : scan :=
  match s with
  | EmptyString => Stopped start
  | String c s' =>
      if RuneSelf <=? byte_of c then NonASCII start
      else if asciiSpace (byte_of c) then scan_start s' (S start)
      else Stopped start
  end.

(** [for ; stop > start; stop--], run over the reversed bytes of
    [s[start:]]: [n] counts the bytes dropped from the end. *)
Fixpoint scan_stop (rs : list ascii) (n : nat) : scan :=
  match rs with
  | [] => Stopped n
  | c :: rs' =>
      if RuneSelf <=? byte_of c then NonASCII n
      else if asciiSpace (byte_of c) then scan_stop rs' (S n)
      else Stopped n
  end.

Section TrimSpace.
(** The Unicode-aware fall-backs [TrimFunc(_, unicode.IsSpace)] and
    [TrimRightFunc(_, unicode.IsSpace)], which need the tables of
    package [unicode]; they are reached only on a non-ASCII byte. *)
Variable TrimFunc_IsSpace : string -> string.
Variable TrimRightFunc_IsSpace : string -> string.

Definition TrimSpace (s : string) : string :=
  match scan_start s 0 with
  | NonASCII start => TrimFunc_IsSpace (from start s)
  | Stopped start =>
      let rest := from start s in
      match scan_stop (rev (list_ascii_of_string rest)) 0 with
      | NonASCII n =>
          TrimRightFunc_IsSpace (upto (String.length rest - n) rest)
      | Stopped n => upto (String.length rest - n) rest
      end
  end.
End TrimSpace.

End strings.

(* ================================================================= *)
(** ** Package [strconv] *)

Module strconv.
Import GoInt strings.

(** The [Err] field of a [*NumError]. *)
Inductive NumError : Type := ErrSyntax | ErrRange.

(** [lower(c) = c | ('x' - 'X')] *)
Definition lower (c : Z) : Z := Z.lor c 32.

(** The digit switch of [ParseUint]'s loop ([base0] is false for an
    explicit base, so an underscore is no digit). *)
Definition digit (c : Z) : option Z :=
  if (48 <=? c) && (c <=? 57) then Some (c - 48)
  else if (97 <=? lower c) && (lower c <=? 122)
       then Some (wrapB (lower c - 97 + 10))
       else None.

(** [cutoff] is the smallest number such that [cutoff*base > maxUint64]. *)
Definition cutoff (base : Z) : Z := maxUint64 / base + 1.

(** [maxVal := uint64(1)<<uint(bitSize) - 1] at [bitSize = 64]. *)
Definition maxVal : Z := wrapU (wrapU (Z.shiftl 1 64) - 1).

Fixpoint ParseUint_loop (base : Z) (s : string) (n : Z)
  : Z * option NumError :=
  match s with
  | EmptyString => (n, None)
  | String c s' =>
      match digit (byte_of c) with
      | None => (0, Some ErrSyntax)
      | Some d =>
          if base <=? d then (0, Some ErrSyntax)
          else if cutoff base <=? n then (maxVal, Some ErrRange)
          else
            let n := wrapU (n * base) in
            let n1 := wrapU (n + d) in
            if (n1 <? n) || (maxVal <? n1) then (maxVal, Some ErrRange)
            else ParseUint_loop base s' n1
      end
  end.

Definition ParseUint (base : Z) (s : string) : Z * option NumError :=
  match s with
  | EmptyString => (0, Some ErrSyntax)
  | _ => ParseUint_loop base s 0
  end.

(** [ParseInt(s, 10, 0)] *)
Definition ParseInt (s : string) : Z * option NumError :=
  match s with
  | EmptyString => (0, Some ErrSyntax)
  | String c0 rest =>
      let neg := byte_of c0 =? 45 in
      let s1 := if (byte_of c0 =? 43) || neg then rest else s in
      let '(un, err) := ParseUint 10 s1 in
      match err with
      | Some ErrSyntax => (0, err)
      | _ =>
          let cutoff := wrapU (Z.shiftl 1 (intSize - 1)) in
          if negb neg && (cutoff <=? un) then (wrap (cutoff - 1), Some ErrRange)
          else if neg && (cutoff <? un) then (GoInt.neg (wrap cutoff), Some ErrRange)
          else
            let n := wrap un in
            ((if neg then GoInt.neg n else n), None)
      end
  end.

(** The fast path's loop: [ch -= '0'] on a byte, then [n = n*10 + int(ch)]. *)
Fixpoint Atoi_loop (s : string) (n : Z) : option Z :=
  match s with
  | EmptyString => Some n
  | String c s' =>
      let ch := wrapB (byte_of c - 48) in
      if 9 <? ch then None
      else Atoi_loop s' (GoInt.add (GoInt.mul n 10) ch)
  end.

Definition Atoi (s : string) : Z * option NumError :=
  let sLen := len s in
  if (intSize =? 64) && ((0 <? sLen) && (sLen <? 19)) then
    (* Fast path for small integers that fit int type. *)
    match s with
    | EmptyString => (0, Some ErrSyntax)
    | String c0 rest =>
        let signed := (byte_of c0 =? 45) || (byte_of c0 =? 43) in
        let s1 := if signed then rest else s in
        if signed && (len s1 <? 1) then (0, Some ErrSyntax)
        else
          match Atoi_loop s1 0 with
          | None => (0, Some ErrSyntax)
          | Some n => ((if byte_of c0 =? 45 then GoInt.neg n else n), None)
          end
    end
  else
    (* Slow path for invalid, big, or underscored integers. *)
    let '(i64, err) := ParseInt s in
    (wrap i64, err).

End strconv.

(* ================================================================= *)
(** ** Package [errors] *)

Module errors.

(** A Go [error] as this package sees one: its text and its chain of
    [Unwrap].  [trace.ErrSnapshotActive] is a package-level value of the
    recorder's package and is told apart by identity, so it is a value
    of its own here. *)
Inductive error : Type :=
| ErrSnapshotActive
| errorString (s : string)                (* errors.New, fmt.Errorf without %w *)
| wrapError (msg : string) (err : error). (* fmt.Errorf with one %w *)

Definition Error (e : error) : string :=
  match e with
  | ErrSnapshotActive =>
      "call to WriteTo for trace.FlightRecorder already in progress"
  | errorString s => s
  | wrapError msg _ => msg
  end.

Definition Unwrap (e : error) : option error :=
  match e with
  | wrapError _ err => Some err
  | _ => None
  end.

(** [errors.Is(err, trace.ErrSnapshotActive)]: the chain of [err] is
    searched for that very value. *)
Fixpoint Is_ErrSnapshotActive (err : error) : bool :=
  match err with
  | ErrSnapshotActive => true
  | errorString _ => false
  | wrapError _ err' => Is_ErrSnapshotActive err'
  end.

End errors.

(* ================================================================= *)
(** ** Package [fmt]: the verb [%d] *)

Module fmt.
Import GoInt.

(** [for u >= 10 { i--; next := u / 10; buf[i] = byte('0' + u - next*10);
    u = next }; i--; buf[i] = digits[u]].  A [uint64] has at most twenty
    decimal digits, which bounds the loop. *)
Fixpoint fmtDigits (fuel : nat) (u : Z) (buf : string) : string :=
  match fuel with
  | O => buf
  | S fuel' =>
      if 10 <=? u then
        let next := u / 10 in
        fmtDigits fuel' next (String (ascii_of_N (Z.to_N (48 + u - next * 10))) buf)
      else String (ascii_of_N (Z.to_N (48 + u))) buf
  end.

(** [fmtInteger(uint64(v), 10, signed, 'd', ldigits)] without flags. *)
Definition fmtInteger (v : Z) : string :=
  let u := wrapU v in
  let negative := wrap u <? 0 in
  let u := if negative then wrapU (- u) else u in
  let buf := fmtDigits 20 u EmptyString in
  if negative then String "-" buf else buf.

(** [Sprintf("%d" + suffix, v)] *)
Definition Sprintf_d (v : Z) (suffix : string) : string :=
  fmtInteger v ++ suffix.

(** [Errorf(msg)] for a format without verbs. *)
Definition Errorf (msg : string) : errors.error := errors.errorString msg.

(** [Errorf(before + "%s" + after, arg)] *)
Definition Errorf_s (before arg after : string) : errors.error :=
  errors.errorString (before ++ arg ++ after).

(** [Errorf(before + "%w", err)] *)
Definition Errorf_w (before : string) (err : errors.error) : errors.error :=
  errors.wrapError (before ++ errors.Error err) err.

End fmt.

(* ================================================================= *)
(** ** Package [time]: durations *)

Module time.
Import GoInt strings.

(** A [Duration] is an [int64] count of nanoseconds. *)
Definition Duration : Type := Z.

Definition Nanosecond : Duration := 1.
Definition Microsecond : Duration := 1000 * Nanosecond.
Definition Millisecond : Duration := 1000 * Microsecond.
Definition Second : Duration := 1000 * Millisecond.
Definition Minute : Duration := 60 * Second.
Definition Hour : Duration := 60 * Minute.

(** The three messages of [ParseDuration]; the quoted input they carry
    is dropped, the caller in this repository only tests for nil. *)
Inductive ParseError : Type :=
| InvalidDuration
| MissingUnit
| UnknownUnit (u : string).

Definition isDigit (c : Z) : bool := (48 <=? c) && (c <=? 57).

(** The micro sign U+00B5 and the Greek letter mu U+03BC, in UTF-8. *)
Definition micro_s : string :=
  String (ascii_of_nat 194) (String (ascii_of_nat 181) "s").
Definition mu_s : string :=
  String (ascii_of_nat 206) (String (ascii_of_nat 188) "s").

Definition unitMap (u : string) : option Z :=
  if String.eqb u "ns" then Some Nanosecond
  else if String.eqb u "us" then Some Microsecond
  else if String.eqb u micro_s then Some Microsecond
  else if String.eqb u mu_s then Some Microsecond
  else if String.eqb u "ms" then Some Millisecond
  else if String.eqb u "s" then Some Second
  else if String.eqb u "m" then Some Minute
  else if String.eqb u "h" then Some Hour
  else None.

(** [leadingInt]: consumes the leading [[0-9]*]; [None] on overflow. *)
Fixpoint leadingInt (s : string) (x : Z) : option (Z * string) :=
  match s with
  | EmptyString => Some (x, s)
  | String c s' =>
      if negb (isDigit (byte_of c)) then Some (x, s)
      else if Z.shiftl 1 63 / 10 <? x then None
      else
        let x := wrapU (wrapU (x * 10 + byte_of c) - 48) in
        if Z.shiftl 1 63 <? x then None else leadingInt s' x
  end.

(** [leadingFraction]: consumes the leading [[0-9]*] and stops
    accumulating on overflow; [scale] is [10^k] for the returned [k]. *)
Fixpoint leadingFraction (s : string) (x : Z) (k : nat) (overflow : bool)
  : Z * nat * string :=
  match s with
  | EmptyString => (x, k, s)
  | String c s' =>
      if negb (isDigit (byte_of c)) then (x, k, s)
      else if overflow then leadingFraction s' x k overflow
      else if (Z.shiftl 1 63 - 1) / 10 <? x then leadingFraction s' x k true
      else
        let y := wrapU (wrapU (x * 10 + byte_of c) - 48) in
        if Z.shiftl 1 63 <? y then leadingFraction s' x k true
        else leadingFraction s' y (S k) overflow
  end.

(** The unit: the bytes up to the next ['.'] or digit. *)
Fixpoint unitLen (s : string) : nat :=
  match s with
  | EmptyString => O
  | String c s' =>
      if (byte_of c =? 46) || isDigit (byte_of c) then O else S (unitLen s')
  end.

Section ParseDuration.
(** [uint64(float64(f) * (float64(unit) / scale))] with [scale = 10^k]:
    the one floating-point expression of [ParseDuration], evaluated
    only for a non-zero fraction. *)
Variable fractionOf : Z -> nat -> Z -> Z.

(** One round of the loop [for s != ""] on a non-empty [s]: the result
    of a [return], or the rest of the string and the new sum [d]. *)
Definition ParseDuration_round (s : string) (d : Z)
  : (Z * option ParseError) + (string * Z) :=
  match s with
  | EmptyString => inl (d, None)
  | String c0 _ =>
      if negb ((byte_of c0 =? 46) || isDigit (byte_of c0))
      then inl (0, Some InvalidDuration)
      else
        match leadingInt s 0 with
        | None => inl (0, Some InvalidDuration)
        | Some (v, s1) =>
            let pre := negb (String.length s =? String.length s1)%nat in
            let '(f, k, s2, post) :=
              match s1 with
              | String c1 s1' =>
                  if byte_of c1 =? 46 then
                    let '(f, k, s2) := leadingFraction s1' 0 O false in
                    (f, k, s2,
                     negb (String.length s1' =? String.length s2)%nat)
                  else (0, O, s1, false)
              | EmptyString => (0, O, s1, false)
              end in
            if negb pre && negb post then inl (0, Some InvalidDuration)
            else
              let i := unitLen s2 in
              if (i =? 0)%nat then inl (0, Some MissingUnit)
              else
                let u := upto i s2 in
                let s3 := from i s2 in
                match unitMap u with
                | None => inl (0, Some (UnknownUnit u))
                | Some unit =>
                    if Z.shiftl 1 63 / unit <? v
                    then inl (0, Some InvalidDuration)
                    else
                      let v := wrapU (v * unit) in
                      let v' :=
                        if 0 <? f
                        then wrapU (v + fractionOf f k unit)
                        else v in
                      if (0 <? f) && (Z.shiftl 1 63 <? v')
                      then inl (0, Some InvalidDuration)
                      else
                        let d := wrapU (d + v') in
                        if Z.shiftl 1 63 <? d
                        then inl (0, Some InvalidDuration)
                        else inr (s3, d)
                end
        end
  end.

(** The loop [for s != ""]; every round consumes at least one byte of
    [s], so [String.length s] rounds are enough. *)
Fixpoint ParseDuration_loop (fuel : nat) (s : string) (d : Z)
  : Z * option ParseError :=
  match s with
  | EmptyString => (d, None)
  | String _ _ =>
      match fuel with
      | O => (0, Some InvalidDuration)
      | S fuel' =>
          match ParseDuration_round s d with
          | inl result => result
          | inr (s', d') => ParseDuration_loop fuel' s' d'
          end
      end
  end.

Definition ParseDuration (s : string) : Duration * option ParseError :=
  let '(neg, s1) :=
    match s with
    | String c rest =>
        if (byte_of c =? 45) || (byte_of c =? 43)
        then (byte_of c =? 45, rest)
        else (false, s)
    | EmptyString => (false, s)
    end in
  if String.eqb s1 "0" then (0, None)
  else if String.eqb s1 "" then (0, Some InvalidDuration)
  else
    match ParseDuration_loop (String.length s1) s1 0 with
    | (_, Some e) => (0, Some e)
    | (d, None) =>
        if neg then (GoInt.neg (wrap d), None)
        else if Z.shiftl 1 63 - 1 <? d then (0, Some InvalidDuration)
        else (wrap d, None)
    end.
End ParseDuration.

End time.

(* ================================================================= *)
(** ** Package [bytes]: the buffer the snapshot is written into *)

Module bytes.

(** A [[]byte]: nil, or a slice with its elements. *)
Inductive slice : Type :=
| nil
| elems (l : list Byte.byte).

Definition to_list (b : slice) : list Byte.byte :=
  match b with nil => [] | elems l => l end.

(** A [Buffer] that is only written to: its field [buf]. *)
Definition Buffer : Type := slice.

(** [var buf bytes.Buffer] *)
Definition zero : Buffer := nil.

(** [Write] appends; an empty write leaves a nil [buf] nil. *)
Definition Write (b : Buffer) (p : list Byte.byte) : Buffer :=
  match p with
  | [] => b
  | _ => elems (to_list b ++ p)
  end.

(** [Bytes] returns [b.buf[b.off:]] with [b.off = 0]. *)
Definition Bytes (b : Buffer) : slice := b.

End bytes.

(* ================================================================= *)
(** ** The recorder capability: [*trace.FlightRecorder] *)

Module trace.
Import errors.

(** The operations of golang.org/x/exp/trace's flight recorder this
    package calls.  [R] is the state of the recorder (and of whatever
    stands behind it); a method returns the new state.  [WriteTo] gives
    the bytes it handed to the writer, in order, next to its error. *)
Class FlightRecorder (R : Type) : Type := {
  NewFlightRecorder : R;
  Enabled : R -> bool;
  SetPeriod : R -> time.Duration -> R;
  SetSize : R -> Z -> R;
  Start : R -> option error * R;
  Stop : R -> option error * R;
  WriteTo : R -> list Byte.byte * option error * R
}.

(** What this package takes for granted of the capability: the two
    setters leave the enabled flag alone, and a new recorder is off. *)
Record Lawful {R : Type} `{FlightRecorder R} : Prop := {
  Enabled_SetPeriod : forall r d, Enabled (SetPeriod r d) = Enabled r;
  Enabled_SetSize : forall r n, Enabled (SetSize r n) = Enabled r;
  Enabled_New : Enabled NewFlightRecorder = false
}.
Arguments Lawful R {_}.

End trace.

(* ================================================================= *)
(** ** Package [flightrecorder]: the control service (flightrecorder.go) *)

Module flightrecorder.
Import errors.
Import time (Duration).

(** [type StatusResponse struct] *)
Module StatusResponse.
Record t : Type := mk {
  Enabled : bool;
  Period : Duration;
  Size : Z
}.
End StatusResponse.

(** [type UpdateRequest struct]: a nil pointer is [None]. *)
Module UpdateRequest.
Record t : Type := mk {
  Period : option Duration;
  Size : option Z
}.
End UpdateRequest.

Section Service.
Context {R : Type} `{trace.FlightRecorder R}.

(** [type Service struct]; the recorder behind the pointer is held in
    place. *)
Record Service : Type := mkService {
  recorder : R;
  period : Duration;
  size : Z
}.

(** The package variables [once] and [service]. *)
Record Globals : Type := mkGlobals {
  once : bool;              (* has [once.Do] run its function? *)
  service : option Service  (* nil until then *)
}.

Definition globals0 : Globals := {| once := false; service := None |}.

Definition InitService (g : Globals) : option Service * Globals :=
  let g' :=
    if once g then g
    else {| once := true;
            service := Some {| recorder := trace.NewFlightRecorder;
                               period := 1 * time.Second;
                               size := 64 * 1024 * 1024 |} |} in
  (service g', g').

Definition Status (s : Service) : StatusResponse.t :=
  {| StatusResponse.Enabled := trace.Enabled (recorder s);
     StatusResponse.Period := period s;
     StatusResponse.Size := size s |}.

Definition Start (s : Service) : option error * Service :=
  if trace.Enabled (recorder s) then
    (Some (fmt.Errorf "flight recorder is already running"), s)
  else
    let r1 := trace.SetPeriod (recorder s) (period s) in
    let r2 := trace.SetSize r1 (size s) in
    let '(err, r3) := trace.Start r2 in
    (err, {| recorder := r3; period := period s; size := size s |}).

Definition Stop (s : Service) : option error * Service :=
  if negb (trace.Enabled (recorder s)) then
    (Some (fmt.Errorf "flight recorder is not running"), s)
  else
    let '(err, r1) := trace.Stop (recorder s) in
    (err, {| recorder := r1; period := period s; size := size s |}).

Definition Snapshot (s : Service) : bytes.slice * option error * Service :=
  if negb (trace.Enabled (recorder s)) then
    (bytes.nil, Some (fmt.Errorf "flight recorder is not running"), s)
  else
    let buf := bytes.zero in
    let '(written, err, r1) := trace.WriteTo (recorder s) in
    let buf := bytes.Write buf written in
    let s1 := {| recorder := r1; period := period s; size := size s |} in
    match err with
    | None => (bytes.Bytes buf, None, s1)
    | Some e =>
        if Is_ErrSnapshotActive e then
          (bytes.nil,
           Some (fmt.Errorf "flight recorder snapshot already in progress"),
           s1)
        else
          (bytes.nil, Some (fmt.Errorf_w "failed to write snapshot: " e), s1)
    end.

Definition Update (s : Service) (req : UpdateRequest.t)
  : option error * Service :=
  let s1 :=
    match UpdateRequest.Period req with
    | Some p =>
        let s' := {| recorder := recorder s; period := p; size := size s |} in
        if trace.Enabled (recorder s') then
          {| recorder := trace.SetPeriod (recorder s') (period s');
             period := period s'; size := size s' |}
        else s'
    | None => s
    end in
  let s2 :=
    match UpdateRequest.Size req with
    | Some n =>
        let s' := {| recorder := recorder s1; period := period s1; size := n |} in
        if trace.Enabled (recorder s') then
          {| recorder := trace.SetSize (recorder s') (size s');
             period := period s'; size := size s' |}
        else s'
    | None => s1
    end in
  (None, s2).

End Service.
Arguments Service R : clear implicits.
Arguments Globals R : clear implicits.

(* --------------------------------------------------------------- *)
(** *** The JSON codec of the status and of the update request *)

Definition formatMemoryUnits (s : Z) : string :=
  if 1024 * 1024 <? s then
    fmt.Sprintf_d (GoInt.quo s (1024 * 1024)) "MB"
  else if 1024 <? s then
    fmt.Sprintf_d (GoInt.quo s 1024) "KB"
  else
    fmt.Sprintf_d s "B".

(** The local [type Alias struct] of [MarshalJSON]. *)
Record StatusAlias : Type := mkStatusAlias {
  aEnabled : bool;
  aPeriod : string;
  aSize : string
}.

(** The local [type Alias struct] of [UnmarshalJSON]. *)
Record UpdateAlias : Type := mkUpdateAlias {
  tPeriod : option string;
  tSize : option string
}.

Section Codec.
(** Of the standard library: [Duration.String], [json.Marshal] and
    [json.Unmarshal] at the two alias types, the Unicode fall-backs
    of [strings.TrimSpace] and the floating-point step of
    [time.ParseDuration]. *)
Variable Duration_String : Duration -> string.
Variable json_Marshal : StatusAlias -> list Byte.byte * option error.
Variable json_Unmarshal : list Byte.byte -> UpdateAlias * option error.
Variable TrimFunc_IsSpace TrimRightFunc_IsSpace : string -> string.
Variable fractionOf : Z -> nat -> Z -> Z.

(** The value [t] of [MarshalJSON] when it is handed to
    [json.Marshal]. *)
Definition MarshalJSON_alias (s : StatusResponse.t) : StatusAlias :=
  {| aEnabled := StatusResponse.Enabled s;
     aPeriod := Duration_String (StatusResponse.Period s);
     aSize :=
       if negb (StatusResponse.Size s =? 0)
       then formatMemoryUnits (StatusResponse.Size s)
       else "0B" |}.

Definition MarshalJSON (s : StatusResponse.t)
  : list Byte.byte * option error :=
  json_Marshal (MarshalJSON_alias s).

Definition convertMemoryUnits (s : string) (mult : Z)
  : Z * option strconv.NumError :=
  match strconv.Atoi s with
  | (_, Some err) => (0, Some err)
  | (v, None) => (GoInt.mul v mult, None)
  end.

Definition parseUnitsBytes (s : string) : Z * option strconv.NumError :=
  let s := strings.TrimSpace TrimFunc_IsSpace TrimRightFunc_IsSpace s in
  if strings.HasSuffix s "MB" then
    let s := strings.TrimSuffix s "MB" in
    convertMemoryUnits s (1024 * 1024)
  else if strings.HasSuffix s "KB" then
    let s := strings.TrimSuffix s "KB" in
    convertMemoryUnits s 1024
  else
    let s := if strings.HasSuffix s "B" then strings.TrimSuffix s "B" else s in
    strconv.Atoi s.

(** The body of [UnmarshalJSON] after [json.Unmarshal] has filled
    [t]: it writes through the receiver [u] and returns the error. *)
Definition UnmarshalJSON_alias (u : UpdateRequest.t) (t : UpdateAlias)
  : option error * UpdateRequest.t :=
  let u1 := {| UpdateRequest.Period := None;
               UpdateRequest.Size := UpdateRequest.Size u |} in
  let period_step :=
    match tPeriod t with
    | Some p =>
        match time.ParseDuration fractionOf p with
        | (_, Some _) =>
            (Some (fmt.Errorf_s "invalid period: " p
                     " should be a duration (e.g. 1s, 100ms, 1h)"), u1)
        | (duration, None) =>
            (None, {| UpdateRequest.Period := Some duration;
                      UpdateRequest.Size := UpdateRequest.Size u1 |})
        end
    | None => (None, u1)
    end in
  match period_step with
  | (Some err, u2) => (Some err, u2)
  | (None, u2) =>
      match tSize t with
      | Some sz =>
          match parseUnitsBytes sz with
          | (_, Some _) =>
              (Some (fmt.Errorf_s "invalid size: " sz
                       " should be an integer of bytes, or a memory unit (e.g. X, or 1MB, 1KB, 1B)"),
               u2)
          | (size, None) =>
              (None, {| UpdateRequest.Period := UpdateRequest.Period u2;
                        UpdateRequest.Size := Some size |})
          end
      | None => (None, u2)
      end
  end.

Definition UnmarshalJSON (u : UpdateRequest.t) (data : list Byte.byte)
  : option error * UpdateRequest.t :=
  match json_Unmarshal data with
  | (_, Some err) => (Some err, u)
  | (t, None) => UnmarshalJSON_alias u t
  end.

End Codec.

End flightrecorder.

(* ================================================================= *)
(** ** A test double of the capability *)

Module double.
Import errors.

(** The externally set options and the flag of the real recorder, and
    the answers scripted for the calls that can fail. *)
Record Recorder : Type := mk {
  enabled : bool;
  targetPeriod : time.Duration;
  targetSize : Z;
  startErr : option error;    (* what starting the runtime tracer answers *)
  stopErr : option error;     (* the error [Stop] reports *)
  ring : list Byte.byte;      (* what [WriteTo] hands to the writer *)
  writeErr : option error     (* and the error it then returns *)
}.

Definition new : Recorder :=
  {| enabled := false;
     targetPeriod := 10 * time.Second;
     targetSize := Z.shiftl 10 20;
     startErr := None; stopErr := None; ring := []; writeErr := None |}.

Definition setPeriod (r : Recorder) (d : time.Duration) : Recorder :=
  {| enabled := enabled r; targetPeriod := d; targetSize := targetSize r;
     startErr := startErr r; stopErr := stopErr r; ring := ring r;
     writeErr := writeErr r |}.

Definition setSize (r : Recorder) (n : Z) : Recorder :=
  {| enabled := enabled r; targetPeriod := targetPeriod r; targetSize := n;
     startErr := startErr r; stopErr := stopErr r; ring := ring r;
     writeErr := writeErr r |}.

Definition setEnabled (r : Recorder) (b : bool) : Recorder :=
  {| enabled := b; targetPeriod := targetPeriod r; targetSize := targetSize r;
     startErr := startErr r; stopErr := stopErr r; ring := ring r;
     writeErr := writeErr r |}.

Definition start (r : Recorder) : option error * Recorder :=
  if enabled r then
    (Some (errorString "cannot enable a enabled flight recorder"), r)
  else
    match startErr r with
    | Some e => (Some e, r)
    | None => (None, setEnabled r true)
    end.

Definition stop (r : Recorder) : option error * Recorder :=
  if negb (enabled r) then
    (Some (errorString "cannot disable a disabled flight recorder"), r)
  else (stopErr r, setEnabled r false).

Definition writeTo (r : Recorder) : list Byte.byte * option error * Recorder :=
  if negb (enabled r) then
    ([], Some (errorString "cannot snapshot a disabled flight recorder"), r)
  else (ring r, writeErr r, r).

#[global] Instance recorder : trace.FlightRecorder Recorder := {
  NewFlightRecorder := new;
  Enabled := enabled;
  SetPeriod := setPeriod;
  SetSize := setSize;
  Start := start;
  Stop := stop;
  WriteTo := writeTo
}.

End double.

(* ================================================================= *)
(** ** Decimal integer literals, for the statements about the codec *)

Module literal.
Import strings.

Definition isDigit (c : ascii) : bool :=
  (48 <=? byte_of c) && (byte_of c <=? 57).

Definition isSign (c : ascii) : bool :=
  (byte_of c =? 43) || (byte_of c =? 45).

Fixpoint all_digits (s : string) : bool :=
  match s with
  | EmptyString => true
  | String c s' => isDigit c && all_digits s'
  end.

(** Positional value of a string of decimal digits. *)
Fixpoint decimal (s : string) : Z :=
  match s with
  | EmptyString => 0
  | String c s' => (byte_of c - 48) * 10 ^ len s' + decimal s'
  end.

Definition nonempty (s : string) : bool :=
  match s with EmptyString => false | _ => true end.

(** An optional sign followed by at least one decimal digit. *)
Definition is_integer (s : string) : bool :=
  match s with
  | EmptyString => false
  | String c s' =>
      if isSign c then nonempty s' && all_digits s'
      else all_digits s
  end.

Definition value (s : string) : Z :=
  match s with
  | EmptyString => 0
  | String c s' =>
      if byte_of c =? 45 then - decimal s'
      else if byte_of c =? 43 then decimal s'
      else decimal s
  end.

(** The part of a trimmed size in front of its unit: [MB] and [KB] are
    looked for before [B]. *)
Definition magnitude (t : string) : string :=
  if HasSuffix t "MB" then TrimSuffix t "MB"
  else if HasSuffix t "KB" then TrimSuffix t "KB"
  else if HasSuffix t "B" then TrimSuffix t "B"
  else t.

Definition multiplier (t : string) : Z :=
  if HasSuffix t "MB" then 1024 * 1024
  else if HasSuffix t "KB" then 1024
  else 1.

(** [sub] occurs in [s]. *)
Fixpoint contains (s sub : string) : bool :=
  String.prefix sub s
  || match s with
     | EmptyString => false
     | String _ s' => contains s' sub
     end.

(** The last byte of a string. *)
Fixpoint lastc (s : string) : option ascii :=
  match s with
  | EmptyString => None
  | String c EmptyString => Some c
  | String _ s' => lastc s'
  end.

(** An ASCII byte that is no space. *)
Definition plain (c : ascii) : bool :=
  (byte_of c <? RuneSelf) && negb (asciiSpace (byte_of c)).

End literal.

(* ================================================================= *)
(** ** Names for the statements: error kinds and sample states *)

Import errors.
Import flightrecorder.

(** The errors the service makes itself. *)
Definition AlreadyRunning : error :=
  errorString "flight recorder is already running".
Definition NotRunning : error :=
  errorString "flight recorder is not running".
Definition SnapshotInProgress : error :=
  errorString "flight recorder snapshot already in progress".
Definition WriteFailed (cause : error) : error :=
  wrapError ("failed to write snapshot: " ++ Error cause) cause.

(** The errors of the update request's decoder, with the text they
    carry. *)
Definition InvalidDuration (lit : string) : error :=
  errorString
    ("invalid period: " ++ lit ++ " should be a duration (e.g. 1s, 100ms, 1h)").
Definition InvalidSize (lit : string) : error :=
  errorString
    ("invalid size: " ++ lit
     ++ " should be an integer of bytes, or a memory unit (e.g. X, or 1MB, 1KB, 1B)").

(** The recorder [Start] hands to the capability's start once its guard
    has passed: the stored period pushed, then the stored size. *)
Definition pushed {R : Type} `{trace.FlightRecorder R} (s : Service R) : R :=
  trace.SetSize (trace.SetPeriod (recorder s) (period s)) (size s).

(** A stopped service on the test double with the default
    configuration, whose capability refuses to start. *)
Definition busy_service : Service double.Recorder :=
  {| recorder :=
       {| double.enabled := false;
          double.targetPeriod := 10 * time.Second;
          double.targetSize := Z.shiftl 10 20;
          double.startErr := Some (errorString "tracing is already enabled");
          double.stopErr := None;
          double.ring := [];
          double.writeErr := None |};
     period := 1 * time.Second;
     size := 64 * 1024 * 1024 |}.

(** A running service on the test double with three bytes buffered. *)
Definition running_service : Service double.Recorder :=
  {| recorder :=
       {| double.enabled := true;
          double.targetPeriod := 1 * time.Second;
          double.targetSize := 64 * 1024 * 1024;
          double.startErr := None;
          double.stopErr := None;
          double.ring := [Byte.x01; Byte.x02; Byte.x03];
          double.writeErr := None |};
     period := 1 * time.Second;
     size := 64 * 1024 * 1024 |}.

(** A running service whose capability fails after writing two bytes. *)
Definition failing_service : Service double.Recorder :=
  {| recorder :=
       {| double.enabled := true;
          double.targetPeriod := 1 * time.Second;
          double.targetSize := 64 * 1024 * 1024;
          double.startErr := None;
          double.stopErr := None;
          double.ring := [Byte.x01; Byte.x02];
          double.writeErr := Some (errorString "short write") |};
     period := 1 * time.Second;
     size := 64 * 1024 * 1024 |}.

(** A running service whose capability answers that an export is
    already under way, after it had written one byte. *)
Definition exporting_service : Service double.Recorder :=
  {| recorder :=
       {| double.enabled := true;
          double.targetPeriod := 1 * time.Second;
          double.targetSize := 64 * 1024 * 1024;
          double.startErr := None;
          double.stopErr := None;
          double.ring := [Byte.x01];
          double.writeErr := Some ErrSnapshotActive |};
     period := 1 * time.Second;
     size := 64 * 1024 * 1024 |}.

(** A stopped service on a new test double, as [InitService] makes
    it. *)
Definition fresh_service : Service double.Recorder :=
  {| recorder := double.new;
     period := 1 * time.Second;
     size := 64 * 1024 * 1024 |}.

(** The error is the capability's snapshot-active value, or wraps it at
    some depth. *)
Inductive wraps_active : error -> Prop :=
| wraps_here : wraps_active ErrSnapshotActive
| wraps_below (msg : string) (err : error) :
    wraps_active err -> wraps_active (wrapError msg err).

(** The fall-backs and the floating-point step are never reached on the
    inputs of the examples; the identity stands in for them. *)
Definition no_trim (s : string) : string := s.
Definition no_fraction (f : Z) (k : nat) (unit : Z) : Z := 0.

(* ================================================================= *)
(** ** Package [net/http]: what the handlers use of it *)

Module http.

Definition MethodGet : string := "GET".
Definition MethodPost : string := "POST".

Definition StatusOK : Z := 200.
Definition StatusBadRequest : Z := 400.
Definition StatusMethodNotAllowed : Z := 405.
Definition StatusInternalServerError : Z := 500.

(** A [Header], for keys written in canonical form as the handlers
    write them: the lines in the order they were first set. *)
Definition Header : Type := list (string * string).

Definition Del (h : Header) (key : string) : Header :=
  filter (fun kv => negb (String.eqb (fst kv) key)) h.

Definition Set_ (h : Header) (key value : string) : Header :=
  (Del h key ++ [(key, value)])%list.

Fixpoint Get (h : Header) (key : string) : option string :=
  match h with
  | [] => None
  | (k, v) :: h' => if String.eqb k key then Some v else Get h' key
  end.

(** The request as the handlers read it. *)
Record Request : Type := mkRequest {
  Method : string;
  Body : list Byte.byte
}.

(** A [ResponseWriter] seen from the handler: the header map, whether
    the status line has gone out and with which code and header, and the
    body written so far.  The guess of a missing Content-Type from the
    first bytes of the body is left out. *)
Record ResponseWriter : Type := mkResponseWriter {
  header : Header;
  wroteHeader : bool;
  status : Z;
  sent : Header;
  body : list Byte.byte
}.

(** A writer nothing was done with. *)
Definition fresh : ResponseWriter :=
  {| header := []; wroteHeader := false; status := 0; sent := []; body := [] |}.

(** [w.Header().Set(key, value)] *)
Definition SetHeader (w : ResponseWriter) (key value : string) : ResponseWriter :=
  {| header := Set_ (header w) key value; wroteHeader := wroteHeader w;
     status := status w; sent := sent w; body := body w |}.

(** [w.Header().Del(key)] *)
Definition DelHeader (w : ResponseWriter) (key : string) : ResponseWriter :=
  {| header := Del (header w) key; wroteHeader := wroteHeader w;
     status := status w; sent := sent w; body := body w |}.

(** [w.WriteHeader(code)]: a second call changes nothing. *)
Definition WriteHeader (w : ResponseWriter) (code : Z) : ResponseWriter :=
  if wroteHeader w then w
  else {| header := header w; wroteHeader := true; status := code;
          sent := header w; body := body w |}.

(** [w.Write(p)]: sends the status 200 first when none was sent. *)
Definition Write (w : ResponseWriter) (p : list Byte.byte) : ResponseWriter :=
  let w := WriteHeader w StatusOK in
  {| header := header w; wroteHeader := wroteHeader w; status := status w;
     sent := sent w; body := (body w ++ p)%list |}.

(** [fmt.Fprintln(w, s)] *)
Definition Fprintln (w : ResponseWriter) (s : string) : ResponseWriter :=
  Write w (list_byte_of_string s ++ [Byte.x0a])%list.

(** [http.Error(w, error, code)] *)
Definition Error (w : ResponseWriter) (error : string) (code : Z)
  : ResponseWriter :=
  let w := DelHeader w "Content-Length" in
  let w := SetHeader w "Content-Type" "text/plain; charset=utf-8" in
  let w := SetHeader w "X-Content-Type-Options" "nosniff" in
  let w := WriteHeader w code in
  Fprintln w error.

(** [json.NewEncoder(w).Encode(v)], given the bytes [json.Marshal]
    makes of [v]: they go out in one [Write], a newline after them;
    nothing is written when marshalling fails. *)
Definition Encode (w : ResponseWriter)
    (marshalled : list Byte.byte * option errors.error) : ResponseWriter :=
  match marshalled with
  | (b, None) => Write w (b ++ [Byte.x0a])%list
  | (_, Some _) => w
  end.

End http.

(* ================================================================= *)
(** ** Package [flightrecorder]: the HTTP handlers (flightrecorder.go) *)

Module handlers.
Import errors flightrecorder.

Section Handlers.
Context {R : Type} `{trace.FlightRecorder R}.

(** Of [encoding/json]: the bytes of a [StatusResponse] and of an
    [ErrorResponse] (given by its field [Error]); the reading of the
    next JSON value of a request body, which [Decode] hands to
    [UnmarshalJSON]; and the parameters of the codec. *)
Variable json_Marshal_Status : StatusResponse.t -> list Byte.byte * option error.
Variable json_Marshal_Error : string -> list Byte.byte * option error.
Variable readValue : list Byte.byte -> list Byte.byte * option error.
Variable json_Unmarshal : list Byte.byte -> UpdateAlias * option error.
Variable TrimFunc_IsSpace TrimRightFunc_IsSpace : string -> string.
Variable fractionOf : Z -> nat -> Z -> Z.

(** [var req UpdateRequest] *)
Definition zeroRequest : UpdateRequest.t :=
  {| UpdateRequest.Period := None; UpdateRequest.Size := None |}.

(** [json.NewDecoder(r.Body).Decode(&req)] *)
Definition Decode (body : list Byte.byte) (req : UpdateRequest.t)
  : option error * UpdateRequest.t :=
  match readValue body with
  | (_, Some err) => (Some err, req)
  | (data, None) =>
      UnmarshalJSON json_Unmarshal TrimFunc_IsSpace TrimRightFunc_IsSpace
        fractionOf req data
  end.

(** The three lines every handler answers an error with. *)
Definition writeError (w : http.ResponseWriter) (code : Z) (msg : string)
  : http.ResponseWriter :=
  let w := http.SetHeader w "Content-Type" "application/json" in
  let w := http.WriteHeader w code in
  http.Encode w (json_Marshal_Error msg).

Definition handleStatus (s : Service R) (w : http.ResponseWriter)
    (r : http.Request) : http.ResponseWriter * Service R :=
  if negb (String.eqb (http.Method r) http.MethodGet) then
    (http.Error w "Method not allowed" http.StatusMethodNotAllowed, s)
  else
    let status := Status s in
    let w := http.SetHeader w "Content-Type" "application/json" in
    (http.Encode w (json_Marshal_Status status), s).

Definition handleStart (s : Service R) (w : http.ResponseWriter)
    (r : http.Request) : http.ResponseWriter * Service R :=
  if negb (String.eqb (http.Method r) http.MethodPost) then
    (http.Error w "Method not allowed" http.StatusMethodNotAllowed, s)
  else
    let '(err, s) := Start s in
    match err with
    | Some e => (writeError w http.StatusBadRequest (Error e), s)
    | None => (http.WriteHeader w http.StatusOK, s)
    end.

Definition handleStop (s : Service R) (w : http.ResponseWriter)
    (r : http.Request) : http.ResponseWriter * Service R :=
  if negb (String.eqb (http.Method r) http.MethodPost) then
    (http.Error w "Method not allowed" http.StatusMethodNotAllowed, s)
  else
    let '(err, s) := Stop s in
    match err with
    | Some e => (writeError w http.StatusBadRequest (Error e), s)
    | None => (http.WriteHeader w http.StatusOK, s)
    end.

Definition handleSnapshot (s : Service R) (w : http.ResponseWriter)
    (r : http.Request) : http.ResponseWriter * Service R :=
  if negb (String.eqb (http.Method r) http.MethodGet) then
    (http.Error w "Method not allowed" http.StatusMethodNotAllowed, s)
  else
    let '(snapshot, err, s) := Snapshot s in
    match err with
    | Some e => (writeError w http.StatusInternalServerError (Error e), s)
    | None =>
        let w := http.SetHeader w "Content-Type" "application/octet-stream" in
        (http.Write w (bytes.to_list snapshot), s)
    end.

Definition handleUpdate (s : Service R) (w : http.ResponseWriter)
    (r : http.Request) : http.ResponseWriter * Service R :=
  if negb (String.eqb (http.Method r) http.MethodPost) then
    (http.Error w "Method not allowed" http.StatusMethodNotAllowed, s)
  else
    match Decode (http.Body r) zeroRequest with
    | (Some _, _) =>
        (writeError w http.StatusBadRequest "Invalid JSON payload", s)
    | (None, req) =>
        let '(err, s) := Update s req in
        match err with
        | Some e => (writeError w http.StatusBadRequest (Error e), s)
        | None => (http.WriteHeader w http.StatusOK, s)
        end
    end.

End Handlers.
End handlers.

(* ================================================================= *)
(** ** The command line client (example/cli/main.go) *)

Module cli.
Import errors flightrecorder.

Section UpdateFlightRecorder.
Variable TrimFunc_IsSpace TrimRightFunc_IsSpace : string -> string.

(** The part of [UpdateFlightRecorder] between the two reads from the
    terminal and [json.Marshal]: the request made of the two lines, or
    the error the function returns with. *)
Definition UpdateFlightRecorder_request (periodLine sizeLine : string)
  : option error * UpdateRequest.t :=
  let periodStr :=
    strings.TrimSpace TrimFunc_IsSpace TrimRightFunc_IsSpace periodLine in
  let sizeStr :=
    strings.TrimSpace TrimFunc_IsSpace TrimRightFunc_IsSpace sizeLine in
  let updateReq :=
    {| UpdateRequest.Period := None; UpdateRequest.Size := None |} in
  let period_step :=
    if negb (String.eqb periodStr "") then
      match strconv.Atoi periodStr with
      | (period, None) =>
          let periodDuration := GoInt.mul (GoInt.wrap period) time.Second in
          (None, {| UpdateRequest.Period := Some periodDuration;
                    UpdateRequest.Size := UpdateRequest.Size updateReq |})
      | (_, Some _) =>
          (Some (fmt.Errorf_s "invalid period: " periodStr ""), updateReq)
      end
    else (None, updateReq) in
  match period_step with
  | (Some err, updateReq) => (Some err, updateReq)
  | (None, updateReq) =>
      if negb (String.eqb sizeStr "") then
        match strconv.Atoi sizeStr with
        | (size, None) =>
            let sizeBytes := GoInt.mul (GoInt.mul size 1024) 1024 in
            (None, {| UpdateRequest.Period := UpdateRequest.Period updateReq;
                      UpdateRequest.Size := Some sizeBytes |})
        | (_, Some _) =>
            (Some (fmt.Errorf_s "invalid size: " sizeStr ""), updateReq)
        end
      else (None, updateReq)
  end.

End UpdateFlightRecorder.

(** What a round of the loop of [Run] does with the line it read. *)
Inductive action : Type :=
| GetStatus
| StartFlightRecorder
| StopFlightRecorder
| GetSnapshot
| UpdateFlightRecorder
| PrintHelp
| Quit
| Continue                       (* the empty command *)
| Unknown (command : string).

(** The [switch command] of [Run]. *)
Definition Run_switch (command : string) : action :=
  if String.eqb command "s" || String.eqb command "status" then GetStatus
  else if String.eqb command "1" || String.eqb command "start"
       then StartFlightRecorder
  else if String.eqb command "2" || String.eqb command "stop"
       then StopFlightRecorder
  else if String.eqb command "3" || String.eqb command "snapshot"
       then GetSnapshot
  else if String.eqb command "4" || String.eqb command "update"
       then UpdateFlightRecorder
  else if String.eqb command "h" || String.eqb command "help" then PrintHelp
  else if String.eqb command "q" || String.eqb command "quit"
          || String.eqb command "exit" then Quit
  else if String.eqb command "" then Continue
  else Unknown command.

(** [strings.ToLower] on bytes: ['A'..'Z'] move by ['a' - 'A']. *)
Definition lowerByte (c : ascii) : ascii :=
  if (65 <=? strings.byte_of c) && (strings.byte_of c <=? 90)
  then ascii_of_N (Z.to_N (strings.byte_of c + 32))
  else c.

Fixpoint isASCII (s : string) : bool :=
  match s with
  | EmptyString => true
  | String c s' => (strings.byte_of c <? strings.RuneSelf) && isASCII s'
  end.

Fixpoint lowerASCII (s : string) : string :=
  match s with
  | EmptyString => EmptyString
  | String c s' => String (lowerByte c) (lowerASCII s')
  end.

Section Run.
Variable TrimFunc_IsSpace TrimRightFunc_IsSpace : string -> string.
(** [strings.Map(unicode.ToLower, s)], for a string that is not ASCII. *)
Variable Map_ToLower : string -> string.

(** [strings.ToLower]: an ASCII string is lowered byte by byte. *)
Definition ToLower (s : string) : string :=
  if isASCII s then lowerASCII s else Map_ToLower s.

(** [command := strings.TrimSpace(strings.ToLower(input))] and the
    branch of the [switch] it takes. *)
Definition Run_command (input : string) : action :=
  Run_switch
    (strings.TrimSpace TrimFunc_IsSpace TrimRightFunc_IsSpace (ToLower input)).
End Run.

End cli.

(* ================================================================= *)
(** ** Names for the statements about sequences of calls and sizes *)

(** A call of one of the five operations of the service. *)
Inductive call : Type :=
| CallStatus
| CallStart
| CallStop
| CallSnapshot
| CallUpdate (req : UpdateRequest.t).

Definition step {R : Type} `{trace.FlightRecorder R} (s : Service R) (c : call)
  : Service R :=
  match c with
  | CallStatus => s
  | CallStart => snd (Start s)
  | CallStop => snd (Stop s)
  | CallSnapshot => snd (Snapshot s)
  | CallUpdate req => snd (Update s req)
  end.

Definition run {R : Type} `{trace.FlightRecorder R} (s : Service R)
    (calls : list call) : Service R :=
  fold_left step calls s.

(** On the test double: a running recorder works with the stored period
    and size. *)
Definition in_step (s : Service double.Recorder) : Prop :=
  double.enabled (recorder s) = true ->
  double.targetPeriod (recorder s) = period s
  /\ double.targetSize (recorder s) = size s.

(** The period and size the service holds after a request. *)
Definition period_after {R : Type} (s : Service R) (req : UpdateRequest.t)
  : time.Duration :=
  match UpdateRequest.Period req with Some p => p | None => period s end.
Definition size_after {R : Type} (s : Service R) (req : UpdateRequest.t) : Z :=
  match UpdateRequest.Size req with Some n => n | None => size s end.

(** The period and the size the last requests of a sequence of calls
    asked for. *)
Definition asked_period (p : time.Duration) (c : call) : time.Duration :=
  match c with
  | CallUpdate req =>
      match UpdateRequest.Period req with Some p' => p' | None => p end
  | _ => p
  end.
Definition asked_size (n : Z) (c : call) : Z :=
  match c with
  | CallUpdate req =>
      match UpdateRequest.Size req with Some n' => n' | None => n end
  | _ => n
  end.

(** The unit [formatMemoryUnits] picks for a size. *)
Definition unit_of (n : Z) : Z :=
  if 1024 * 1024 <? n then 1024 * 1024 else if 1024 <? n then 1024 else 1.

(** An ASCII white space byte, and a string of nothing else. *)
Definition spaceb (c : ascii) : bool :=
  (strings.byte_of c <? strings.RuneSelf)
  && strings.asciiSpace (strings.byte_of c).

Fixpoint all_space (s : string) : bool :=
  match s with
  | EmptyString => true
  | String c s' => spaceb c && all_space s'
  end.

(** A trimmed line the client takes: blank, or an integer literal that
    fits [int]. *)
Definition field_ok (s : string) : Prop :=
  s = ""
  \/ (literal.is_integer s = true /\ GoInt.in_range (literal.value s)).

(** The header lines and the body a response went out with. *)
Definition answered (w : http.ResponseWriter) (code : Z) (ctype : string)
  : Prop :=
  http.wroteHeader w = true /\ http.status w = code
  /\ http.Get (http.sent w) "Content-Type" = Some ctype.

(** A writer whose status line has not gone out. *)
Definition unsent (w : http.ResponseWriter) : Prop :=
  http.wroteHeader w = false.

(** [w'] is [w] answered with an error: the code, the JSON content type
    and, when [json.Marshal] made bytes of the message, those bytes and
    a newline as the body. *)
Definition error_answer (marshal : string -> list Byte.byte * option error)
    (w w' : http.ResponseWriter) (code : Z) (msg : string) : Prop :=
  answered w' code "application/json"
  /\ http.body w' =
       (http.body w
        ++ match marshal msg with
           | (b, None) => b ++ [Byte.x0a]
           | (_, Some _) => []
           end)%list.

(** [w'] is [w] answered with a bare 200: no body, no content type
    asked for. *)
Definition bare_ok (w w' : http.ResponseWriter) : Prop :=
  http.wroteHeader w' = true /\ http.status w' = http.StatusOK
  /\ http.body w' = http.body w /\ http.sent w' = http.header w.

(* ================================================================= *)
(** * Facts about the string functions *)

Module strings_facts.
Import strings literal.

Lemma length_app (a b : string) :
  String.length (a ++ b) = (String.length a + String.length b)%nat.
Proof. induction a; simpl; congruence. Qed.

Lemma app_assoc (a b c : string) : (a ++ b) ++ c = a ++ (b ++ c).
Proof. induction a; simpl; congruence. Qed.

Lemma app_empty_r (a : string) : a ++ "" = a.
Proof. induction a; simpl; congruence. Qed.

Lemma substring_all (s : string) : substring 0 (String.length s) s = s.
Proof. induction s; simpl; congruence. Qed.

Lemma substring_prefix (a b : string) :
  substring 0 (String.length a) (a ++ b) = a.
Proof.
  induction a; simpl; [now destruct b | congruence].
Qed.

Lemma substring_skip (a b : string) (m : nat) :
  substring (String.length a) m (a ++ b) = substring 0 m b.
Proof. induction a; simpl; auto. Qed.

Lemma substring_split (s : string) (n : nat) :
  (n <= String.length s)%nat ->
  s = substring 0 n s ++ substring n (String.length s - n) s.
Proof.
  revert n. induction s as [|c s IH]; intros [|n] Hn; simpl in *;
    try lia; try reflexivity.
  - now rewrite substring_all.
  - rewrite <- IH by lia. reflexivity.
Qed.

Lemma from_app (a b : string) : from (String.length a) (a ++ b) = b.
Proof.
  unfold from. rewrite length_app, substring_skip.
  replace (String.length a + String.length b - String.length a)%nat
    with (String.length b) by lia.
  apply substring_all.
Qed.

Lemma upto_app (a b : string) : upto (String.length a) (a ++ b) = a.
Proof. apply substring_prefix. Qed.

Lemma HasSuffix_app (a suf : string) : HasSuffix (a ++ suf) suf = true.
Proof.
  unfold HasSuffix. rewrite length_app.
  replace (String.length a + String.length suf - String.length suf)%nat
    with (String.length a) by lia.
  rewrite from_app, String.eqb_refl, andb_true_r.
  apply Nat.leb_le. lia.
Qed.

Lemma TrimSuffix_app (a suf : string) : TrimSuffix (a ++ suf) suf = a.
Proof.
  unfold TrimSuffix. rewrite HasSuffix_app, length_app.
  replace (String.length a + String.length suf - String.length suf)%nat
    with (String.length a) by lia.
  apply upto_app.
Qed.

Lemma HasSuffix_inv (s suf : string) :
  HasSuffix s suf = true -> s = TrimSuffix s suf ++ suf.
Proof.
  intros E. unfold TrimSuffix. rewrite E.
  unfold HasSuffix in E. apply andb_true_iff in E as [L E].
  apply Nat.leb_le in L. apply String.eqb_eq in E.
  remember (String.length s - String.length suf)%nat as n eqn:En.
  assert (Hn : (n <= String.length s)%nat) by lia.
  clear En L. subst suf. unfold upto, from.
  now apply substring_split.
Qed.

Lemma lastc_app_snoc (a : string) (c : ascii) :
  lastc (a ++ String c "") = Some c.
Proof.
  induction a as [|x a IH]; simpl; [reflexivity|].
  rewrite IH. now destruct a.
Qed.

Lemma lastc_app (a b : string) : b <> "" -> lastc (a ++ b) = lastc b.
Proof.
  intros Hb. induction a as [|x a IH]; simpl; [reflexivity|].
  rewrite IH. destruct a; simpl; [|reflexivity].
  now destruct b.
Qed.

Lemma snoc_inj (a b : string) (c d : ascii) :
  a ++ String c "" = b ++ String d "" -> a = b /\ c = d.
Proof.
  revert b. induction a as [|x a IH]; intros [|y b] E; simpl in E.
  - now inversion E.
  - inversion E; subst. now destruct b.
  - inversion E; subst. now destruct a.
  - inversion E; subst. destruct (IH b) as [-> ->]; auto.
Qed.

Lemma lastc_rev (s : string) (c : ascii) :
  lastc s = Some c -> exists l, rev (list_ascii_of_string s) = c :: l.
Proof.
  induction s as [|x s IH]; simpl; [discriminate|].
  destruct s as [|y s].
  - intros [= ->]. now exists [].
  - intros E. destruct (IH E) as [l El].
    exists (l ++ [x])%list. simpl in *. now rewrite El.
Qed.

(** [TrimSpace] leaves alone a string that starts and ends with an
    ASCII byte that is no space. *)
Lemma TrimSpace_plain (f g : string -> string) (c : ascii) (s : string) (d : ascii) :
  plain c = true -> lastc (String c s) = Some d -> plain d = true ->
  TrimSpace f g (String c s) = String c s.
Proof.
  unfold plain. intros Hc Hl Hd.
  apply andb_true_iff in Hc as [Hc1 Hc2], Hd as [Hd1 Hd2].
  apply Z.ltb_lt in Hc1, Hd1. apply negb_true_iff in Hc2, Hd2.
  unfold TrimSpace. cbn [scan_start].
  destruct (Z.leb_spec RuneSelf (byte_of c)); [lia|]. rewrite Hc2.
  unfold from. rewrite Nat.sub_0_r, substring_all.
  destruct (lastc_rev _ _ Hl) as [l ->]. cbn [scan_stop].
  destruct (Z.leb_spec RuneSelf (byte_of d)); [lia|]. rewrite Hd2.
  unfold upto. now rewrite Nat.sub_0_r, substring_all.
Qed.

End strings_facts.

(* ================================================================= *)
(** * Facts about integers, [strconv.Atoi] and the verb [%d] *)

Module int_facts.
Import GoInt.

Lemma wrap_id (z : Z) : in_range z -> wrap z = z.
Proof.
  unfold in_range, minInt, maxInt, wrap. intros Hz.
  rewrite Z.mod_small; lia.
Qed.

Lemma wrapU_id (z : Z) : 0 <= z <= maxUint64 -> wrapU z = z.
Proof. unfold maxUint64, wrapU. intros Hz. apply Z.mod_small. lia. Qed.

Lemma wrapB_id (z : Z) : 0 <= z < 256 -> wrapB z = z.
Proof. unfold wrapB. intros Hz. now apply Z.mod_small. Qed.

Lemma add_id (a b : Z) : in_range (a + b) -> add a b = a + b.
Proof. apply wrap_id. Qed.

Lemma mul_id (a b : Z) : in_range (a * b) -> mul a b = a * b.
Proof. apply wrap_id. Qed.

Lemma neg_id (a : Z) : in_range (- a) -> neg a = - a.
Proof. apply wrap_id. Qed.

(** On non-negative operands Go's quotient is the floor. *)
Lemma quo_div (a b : Z) :
  0 <= a <= maxInt -> 0 < b -> quo a b = a / b.
Proof.
  intros Ha Hb. unfold quo. rewrite Z.quot_div_nonneg by lia.
  apply wrap_id. unfold in_range, minInt, maxInt in *.
  assert (0 <= a / b) by (apply Z.div_pos; lia).
  assert (a / b <= a) by (apply Z.div_le_upper_bound; nia).
  lia.
Qed.

End int_facts.

Module literal_facts.
Import strings literal strings_facts.

Lemma byte_of_range (c : ascii) : 0 <= byte_of c < 256.
Proof.
  unfold byte_of. pose proof (N_ascii_bounded c). lia.
Qed.

Lemma isDigit_range (c : ascii) :
  isDigit c = true <-> 48 <= byte_of c <= 57.
Proof. unfold isDigit. rewrite andb_true_iff, !Z.leb_le. tauto. Qed.

Lemma len_String (c : ascii) (s : string) : len (String c s) = len s + 1.
Proof. unfold len. simpl String.length. lia. Qed.

Lemma len_nonneg (s : string) : 0 <= len s.
Proof. unfold len. lia. Qed.

Lemma len_app (a b : string) : len (a ++ b) = len a + len b.
Proof. unfold len. rewrite length_app. lia. Qed.

Lemma pow10_len_String (c : ascii) (s : string) :
  10 ^ len (String c s) = 10 * 10 ^ len s.
Proof.
  rewrite len_String, Z.pow_add_r by (pose proof (len_nonneg s); lia).
  lia.
Qed.

Lemma pow10_pos (s : string) : 1 <= 10 ^ len s.
Proof.
  pose proof (len_nonneg s).
  assert (0 < 10 ^ len s) by (apply Z.pow_pos_nonneg; lia). lia.
Qed.

Lemma decimal_bounds (s : string) :
  all_digits s = true -> 0 <= decimal s < 10 ^ len s.
Proof.
  induction s as [|c s IH]; cbn [all_digits decimal];
    [intros _; unfold len; simpl; lia|].
  intros E. apply andb_true_iff in E as [Hc Hs].
  apply isDigit_range in Hc. specialize (IH Hs).
  rewrite pow10_len_String. pose proof (pow10_pos s). nia.
Qed.

Lemma all_digits_app (a b : string) :
  all_digits (a ++ b) = all_digits a && all_digits b.
Proof.
  induction a as [|c a IH]; simpl; [reflexivity|].
  now rewrite IH, andb_assoc.
Qed.

Lemma decimal_app (a b : string) :
  decimal (a ++ b) = decimal a * 10 ^ len b + decimal b.
Proof.
  induction a as [|c a IH]; cbn [decimal append]; [lia|].
  rewrite IH, len_app, Z.pow_add_r by apply len_nonneg. lia.
Qed.

Lemma decimal_snoc (a : string) (c : ascii) :
  decimal (a ++ String c "") = decimal a * 10 + (byte_of c - 48).
Proof.
  rewrite decimal_app. cbn [decimal]. change (len "") with 0.
  change (len (String c "")) with 1. lia.
Qed.

Lemma all_digits_lastc (s : string) :
  all_digits s = true -> s <> "" ->
  exists d, lastc s = Some d /\ isDigit d = true.
Proof.
  induction s as [|c s IH]; [congruence|].
  simpl all_digits. intros E _. apply andb_true_iff in E as [Hc Hs].
  destruct s as [|c' s]; [now exists c|].
  destruct (IH Hs) as (d & Hd & Hd'); [discriminate|].
  exists d. split; [exact Hd | exact Hd'].
Qed.

(** An integer literal ends with a digit and starts with a sign or a
    digit. *)
Lemma is_integer_lastc (s : string) :
  is_integer s = true -> exists d, lastc s = Some d /\ isDigit d = true.
Proof.
  destruct s as [|c s]; [discriminate|]. unfold is_integer.
  destruct (isSign c).
  - intros E. apply andb_true_iff in E as [Hn Hs].
    destruct s as [|c' s]; [discriminate|].
    destruct (all_digits_lastc _ Hs) as (d & Hd & Hd'); [discriminate|].
    exists d. split; [exact Hd | exact Hd'].
  - intros E. apply all_digits_lastc; [exact E | discriminate].
Qed.

Lemma isDigit_plain (c : ascii) : isDigit c = true -> plain c = true.
Proof.
  intros Hc. apply isDigit_range in Hc. unfold plain, asciiSpace, RuneSelf.
  apply andb_true_iff. split; [apply Z.ltb_lt; lia|].
  apply negb_true_iff.
  repeat (apply orb_false_iff; split); apply Z.eqb_neq; lia.
Qed.

Lemma isSign_plain (c : ascii) : isSign c = true -> plain c = true.
Proof.
  unfold isSign. rewrite orb_true_iff, !Z.eqb_eq. intros Hc.
  unfold plain, asciiSpace, RuneSelf.
  apply andb_true_iff. split; [apply Z.ltb_lt; lia|].
  apply negb_true_iff.
  repeat (apply orb_false_iff; split); apply Z.eqb_neq; lia.
Qed.

Lemma is_integer_first (c : ascii) (s : string) :
  is_integer (String c s) = true -> plain c = true.
Proof.
  unfold is_integer. destruct (isSign c) eqn:Hs.
  - intros _. now apply isSign_plain.
  - simpl. intros E. apply andb_true_iff in E as [Hc _].
    now apply isDigit_plain.
Qed.

End literal_facts.

Module strconv_facts.
Import GoInt strings strconv literal strings_facts int_facts literal_facts.

Lemma Atoi_loop_digits (s : string) : forall n,
  all_digits s = true -> 0 <= n ->
  n * 10 ^ len s + decimal s <= maxInt ->
  Atoi_loop s n = Some (n * 10 ^ len s + decimal s).
Proof.
  induction s as [|c s IH]; intros n Hs Hn Hb;
    cbn [Atoi_loop all_digits decimal] in *.
  - unfold len; simpl. f_equal. lia.
  - apply andb_true_iff in Hs as [Hc Hs]. apply isDigit_range in Hc.
    rewrite wrapB_id by lia.
    destruct (Z.ltb_spec 9 (byte_of c - 48)); [lia|].
    rewrite pow10_len_String in *.
    pose proof (pow10_pos s). pose proof (decimal_bounds s Hs).
    assert (Hr : n * 10 + (byte_of c - 48) <= maxInt) by nia.
    rewrite mul_id by (unfold in_range, minInt, maxInt in *; lia).
    rewrite add_id by (unfold in_range, minInt, maxInt in *; lia).
    rewrite IH; [f_equal; lia | assumption | lia | nia].
Qed.

Lemma Atoi_loop_other (s : string) : forall n,
  all_digits s = false -> Atoi_loop s n = None.
Proof.
  induction s as [|c s IH]; intros n Hs; cbn [Atoi_loop all_digits] in *;
    [discriminate|].
  pose proof (byte_of_range c) as Hb.
  destruct (isDigit c) eqn:Hc.
  - apply isDigit_range in Hc. rewrite wrapB_id by lia.
    destruct (Z.ltb_spec 9 (byte_of c - 48)); [reflexivity|].
    now apply IH.
  - assert (Hn : ~ 48 <= byte_of c <= 57)
      by (rewrite <- isDigit_range; congruence).
    assert (Hw : 9 < wrapB (byte_of c - 48)).
    { unfold wrapB. destruct (Z.lt_ge_cases (byte_of c) 48).
      - replace (byte_of c - 48) with (byte_of c + 208 + (-1) * 256) by lia.
        rewrite Z.mod_add, Z.mod_small by lia. lia.
      - rewrite Z.mod_small by lia. lia. }
    now destruct (Z.ltb_spec 9 (wrapB (byte_of c - 48))); [|lia].
Qed.

Lemma digit_digit (c : ascii) :
  isDigit c = true -> digit (byte_of c) = Some (byte_of c - 48).
Proof. unfold digit, isDigit. now intros ->. Qed.

Lemma digit_other (c : ascii) :
  isDigit c = false ->
  digit (byte_of c) = None
  \/ exists d, digit (byte_of c) = Some d /\ 10 <= d.
Proof.
  unfold digit, isDigit. intros ->.
  destruct ((97 <=? lower (byte_of c)) && (lower (byte_of c) <=? 122)) eqn:E;
    [right | now left].
  apply andb_true_iff in E as [E1 E2]. apply Z.leb_le in E1, E2.
  eexists. split; [reflexivity|]. rewrite wrapB_id; lia.
Qed.

Lemma maxVal_eq : maxVal = maxUint64.
Proof. reflexivity. Qed.

Lemma cutoff_10 : cutoff 10 = 1844674407370955162.
Proof. reflexivity. Qed.

(** On a string of digits the loop of [ParseUint] computes the number
    started with [n], or reports that it does not fit sixty-four
    bits. *)
Lemma ParseUint_loop_digits (s : string) : forall n,
  all_digits s = true -> 0 <= n <= maxUint64 ->
  ParseUint_loop 10 s n =
    if n * 10 ^ len s + decimal s <=? maxUint64
    then (n * 10 ^ len s + decimal s, None)
    else (maxUint64, Some ErrRange).
Proof.
  induction s as [|c s IH]; intros n Hs Hn;
    cbn [ParseUint_loop all_digits decimal] in *.
  - unfold len; simpl. rewrite Z.mul_1_r, Z.add_0_r.
    destruct (Z.leb_spec n maxUint64); [reflexivity | lia].
  - apply andb_true_iff in Hs as [Hc Hs].
    rewrite (digit_digit c Hc). apply isDigit_range in Hc.
    destruct (Z.leb_spec 10 (byte_of c - 48)); [lia|].
    rewrite pow10_len_String.
    pose proof (pow10_pos s). pose proof (decimal_bounds s Hs).
    rewrite cutoff_10, maxVal_eq. unfold maxUint64 in *.
    destruct (Z.leb_spec 1844674407370955162 n).
    + destruct (Z.leb_spec (n * (10 * 10 ^ len s)
                            + ((byte_of c - 48) * 10 ^ len s + decimal s))
                           (2 ^ 64 - 1)); [nia | reflexivity].
    + rewrite (wrapU_id (n * 10)) by (unfold maxUint64; lia).
      destruct (Z.le_gt_cases (n * 10 + (byte_of c - 48)) (2 ^ 64 - 1)).
      * rewrite wrapU_id by (unfold maxUint64; lia).
        destruct (Z.ltb_spec (n * 10 + (byte_of c - 48)) (n * 10)); [lia|].
        destruct (Z.ltb_spec (2 ^ 64 - 1) (n * 10 + (byte_of c - 48))); [lia|].
        cbn [orb]. rewrite IH by (try assumption; unfold maxUint64; lia).
        replace ((n * 10 + (byte_of c - 48)) * 10 ^ len s + decimal s)
          with (n * (10 * 10 ^ len s)
                + ((byte_of c - 48) * 10 ^ len s + decimal s)) by lia.
        reflexivity.
      * assert (Hw : wrapU (n * 10 + (byte_of c - 48))
                     = n * 10 + (byte_of c - 48) - 2 ^ 64).
        { unfold wrapU. symmetry.
          apply (Z.mod_unique _ _ 1); lia. }
        rewrite Hw.
        destruct (Z.ltb_spec (n * 10 + (byte_of c - 48) - 2 ^ 64) (n * 10));
          [|lia].
        cbn [orb].
        destruct (Z.leb_spec (n * (10 * 10 ^ len s)
                              + ((byte_of c - 48) * 10 ^ len s + decimal s))
                             (2 ^ 64 - 1)); [nia | reflexivity].
Qed.

Lemma ParseUint_loop_other (s : string) : forall n,
  all_digits s = false -> 0 <= n <= maxUint64 ->
  ParseUint_loop 10 s n = (0, Some ErrSyntax)
  \/ ParseUint_loop 10 s n = (maxUint64, Some ErrRange).
Proof.
  induction s as [|c s IH]; intros n Hs Hn;
    cbn [ParseUint_loop all_digits] in *; [discriminate|].
  destruct (isDigit c) eqn:Hc.
  - rewrite (digit_digit c Hc). apply isDigit_range in Hc.
    destruct (Z.leb_spec 10 (byte_of c - 48)); [lia|].
    rewrite maxVal_eq.
    destruct (cutoff 10 <=? n); [now right|].
    cbv zeta.
    destruct ((_ <? _) || (_ <? _)); [now right|].
    apply IH; [exact Hs|].
    unfold wrapU, maxUint64.
    pose proof (Z.mod_pos_bound (wrapU (n * 10) + (byte_of c - 48)) (2 ^ 64)).
    unfold wrapU in *. lia.
  - destruct (digit_other c Hc) as [-> | (d & -> & Hd)]; [now left|].
    destruct (Z.leb_spec 10 d); [now left | lia].
Qed.

End strconv_facts.

Module atoi_facts.
Import GoInt strings strconv literal strings_facts int_facts literal_facts
  strconv_facts.

Lemma pow10_18 (s : string) : len s < 19 -> 10 ^ len s <= 10 ^ 18.
Proof.
  intros Hl. apply Z.pow_le_mono_r; lia.
Qed.

Lemma nonempty_len (s : string) : nonempty s = true -> 1 <= len s.
Proof.
  destruct s; [discriminate|]. intros _. rewrite len_String.
  pose proof (len_nonneg s). lia.
Qed.

Lemma ParseUint_nonempty (s : string) :
  nonempty s = true -> ParseUint 10 s = ParseUint_loop 10 s 0.
Proof. now destruct s. Qed.

(** The sign tests of [Atoi] and [ParseInt]. *)
Lemma sign_cases (c : ascii) :
  byte_of c = 45 \/ byte_of c = 43 \/ (byte_of c <> 45 /\ byte_of c <> 43).
Proof.
  destruct (Z.eq_dec (byte_of c) 45); [now left|].
  destruct (Z.eq_dec (byte_of c) 43); [now right; left|].
  now right; right.
Qed.

Ltac sign_tests :=
  repeat match goal with
    | E : byte_of ?c = 45 |- _ =>
        rewrite ?E in *;
        change (45 =? 45) with true in *; change (45 =? 43) with false in *;
        clear E
    | E : byte_of ?c = 43 |- _ =>
        rewrite ?E in *;
        change (43 =? 45) with false in *; change (43 =? 43) with true in *;
        clear E
    | E : byte_of ?c <> 45 |- _ =>
        apply Z.eqb_neq in E; rewrite ?E in *
    | E : byte_of ?c <> 43 |- _ =>
        apply Z.eqb_neq in E; rewrite ?E in *
    end;
  cbn [orb andb negb] in *.

(** The literal and its split into sign and digits. *)
Lemma integer_split (c : ascii) (rest : string) :
  is_integer (String c rest) = true ->
  (byte_of c = 45 /\ nonempty rest = true /\ all_digits rest = true
   /\ value (String c rest) = - decimal rest)
  \/ (byte_of c = 43 /\ nonempty rest = true /\ all_digits rest = true
      /\ value (String c rest) = decimal rest)
  \/ (byte_of c <> 45 /\ byte_of c <> 43
      /\ all_digits (String c rest) = true
      /\ value (String c rest) = decimal (String c rest)).
Proof.
  unfold is_integer, value, isSign.
  destruct (sign_cases c) as [E|[E|[E1 E2]]].
  - rewrite E. change (45 =? 43) with false. change (45 =? 45) with true.
    cbn [orb]. intros H. apply andb_true_iff in H. left. tauto.
  - rewrite E. change (43 =? 43) with true. change (43 =? 45) with false.
    cbn [orb]. intros H. apply andb_true_iff in H. right; left. tauto.
  - pose proof E1 as E1'. pose proof E2 as E2'.
    apply Z.eqb_neq in E1', E2'. rewrite E1', E2'. cbn [orb].
    intros H. right; right. tauto.
Qed.

Lemma Atoi_fast_path (s : string) :
  1 <= len s < 19 ->
  Atoi s =
    match s with
    | EmptyString => (0, Some ErrSyntax)
    | String c0 rest =>
        let signed := (byte_of c0 =? 45) || (byte_of c0 =? 43) in
        let s1 := if signed then rest else s in
        if signed && (len s1 <? 1) then (0, Some ErrSyntax)
        else
          match Atoi_loop s1 0 with
          | None => (0, Some ErrSyntax)
          | Some n => ((if byte_of c0 =? 45 then GoInt.neg n else n), None)
          end
    end.
Proof.
  intros Hl. unfold Atoi. change (intSize =? 64) with true.
  destruct (Z.ltb_spec 0 (len s)); [|lia].
  destruct (Z.ltb_spec (len s) 19); [|lia]. reflexivity.
Qed.

Lemma Atoi_slow_path (s : string) :
  ~ 1 <= len s < 19 ->
  Atoi s = (wrap (fst (ParseInt s)), snd (ParseInt s)).
Proof.
  intros Hl. unfold Atoi. change (intSize =? 64) with true.
  destruct (Z.ltb_spec 0 (len s)), (Z.ltb_spec (len s) 19); try lia;
    cbn [andb]; now destruct (ParseInt s).
Qed.

Lemma ParseInt_signed (c : ascii) (rest : string) :
  ParseInt (String c rest) =
    let neg := byte_of c =? 45 in
    let s1 := if (byte_of c =? 43) || neg then rest else String c rest in
    match snd (ParseUint 10 s1) with
    | Some ErrSyntax => (0, snd (ParseUint 10 s1))
    | _ =>
        let un := fst (ParseUint 10 s1) in
        if negb neg && (2 ^ 63 <=? un) then (2 ^ 63 - 1, Some ErrRange)
        else if neg && (2 ^ 63 <? un) then (- 2 ^ 63, Some ErrRange)
        else ((if neg then GoInt.neg (wrap un) else wrap un), None)
    end.
Proof.
  unfold ParseInt. cbv zeta.
  destruct (ParseUint 10 _) as [un [[|]|]]; reflexivity.
Qed.

End atoi_facts.

Module atoi_spec.
Import GoInt strings strconv literal strings_facts int_facts literal_facts
  strconv_facts atoi_facts.

Lemma digits_cases (s : string) :
  all_digits s = true ->
  ParseUint_loop 10 s 0 =
    if decimal s <=? maxUint64 then (decimal s, None)
    else (maxUint64, Some ErrRange).
Proof.
  intros Hs. rewrite ParseUint_loop_digits by (try assumption; unfold maxUint64; lia).
  reflexivity.
Qed.

(** [Atoi] on an integer literal whose value fits [int]. *)
Theorem Atoi_integer (s : string) :
  is_integer s = true -> in_range (value s) -> Atoi s = (value s, None).
Proof.
  destruct s as [|c rest]; [discriminate|]. intros Hi Hv.
  pose proof (len_String c rest) as Hlen. pose proof (len_nonneg rest) as Hl0.
  unfold in_range, minInt, maxInt in Hv.
  destruct (Z.lt_ge_cases (len (String c rest)) 19) as [Hshort|Hlong].
  - rewrite Atoi_fast_path by lia. cbv zeta.
    destruct (integer_split c rest Hi)
      as [(E & Hn & Hd & Hval) | [(E & Hn & Hd & Hval) | (E1 & E2 & Hd & Hval)]];
      rewrite Hval in *.
    + sign_tests. apply nonempty_len in Hn.
      destruct (Z.ltb_spec (len rest) 1); [lia|].
      pose proof (decimal_bounds rest Hd). pose proof (pow10_18 rest ltac:(lia)).
      rewrite Atoi_loop_digits by (try assumption; unfold maxInt; lia).
      rewrite neg_id by (unfold in_range, minInt, maxInt; lia).
      f_equal; lia.
    + sign_tests. apply nonempty_len in Hn.
      destruct (Z.ltb_spec (len rest) 1); [lia|].
      pose proof (decimal_bounds rest Hd). pose proof (pow10_18 rest ltac:(lia)).
      rewrite Atoi_loop_digits by (try assumption; unfold maxInt; lia).
      f_equal; lia.
    + sign_tests.
      pose proof (decimal_bounds _ Hd). pose proof (pow10_18 _ Hshort).
      rewrite Atoi_loop_digits by (try assumption; unfold maxInt; lia).
      f_equal; lia.
  - rewrite Atoi_slow_path by lia. rewrite ParseInt_signed. cbv zeta.
    destruct (integer_split c rest Hi)
      as [(E & Hn & Hd & Hval) | [(E & Hn & Hd & Hval) | (E1 & E2 & Hd & Hval)]];
      rewrite Hval in *.
    + sign_tests. rewrite (ParseUint_nonempty _ Hn), (digits_cases _ Hd).
      pose proof (decimal_bounds rest Hd).
      destruct (Z.leb_spec (decimal rest) maxUint64);
        [|unfold maxUint64 in *; lia].
      cbn [fst snd].
      destruct (Z.ltb_spec (2 ^ 63) (decimal rest)); [lia|]. cbn [fst snd].
      destruct (Z.eq_dec (decimal rest) (2 ^ 63)) as [Em|Em].
      * rewrite Em. reflexivity.
      * rewrite (wrap_id (decimal rest))
          by (unfold in_range, minInt, maxInt; lia).
        rewrite neg_id by (unfold in_range, minInt, maxInt; lia).
        rewrite wrap_id by (unfold in_range, minInt, maxInt; lia).
        reflexivity.
    + sign_tests. rewrite (ParseUint_nonempty _ Hn), (digits_cases _ Hd).
      pose proof (decimal_bounds rest Hd).
      destruct (Z.leb_spec (decimal rest) maxUint64);
        [|unfold maxUint64 in *; lia].
      cbn [fst snd].
      destruct (Z.leb_spec (2 ^ 63) (decimal rest)); [lia|]. cbn [fst snd].
      rewrite !(wrap_id (decimal rest))
        by (unfold in_range, minInt, maxInt; lia).
      reflexivity.
    + sign_tests. rewrite (ParseUint_nonempty (String c rest) eq_refl),
        (digits_cases _ Hd).
      pose proof (decimal_bounds _ Hd).
      destruct (Z.leb_spec (decimal (String c rest)) maxUint64);
        [|unfold maxUint64 in *; lia].
      cbn [fst snd].
      destruct (Z.leb_spec (2 ^ 63) (decimal (String c rest))); [lia|].
      cbn [fst snd].
      rewrite !(wrap_id (decimal (String c rest)))
        by (unfold in_range, minInt, maxInt; lia).
      reflexivity.
Qed.

(** [Atoi] on an integer literal whose value does not fit [int]. *)
Theorem Atoi_range (s : string) :
  is_integer s = true -> ~ in_range (value s) ->
  snd (Atoi s) = Some ErrRange.
Proof.
  destruct s as [|c rest]; [discriminate|]. intros Hi Hv.
  pose proof (len_String c rest) as Hlen. pose proof (len_nonneg rest) as Hl0.
  unfold in_range, minInt, maxInt in Hv.
  destruct (Z.lt_ge_cases (len (String c rest)) 19) as [Hshort|Hlong].
  - exfalso. apply Hv.
    destruct (integer_split c rest Hi)
      as [(E & Hn & Hd & Hval) | [(E & Hn & Hd & Hval) | (E1 & E2 & Hd & Hval)]];
      rewrite Hval.
    + pose proof (decimal_bounds rest Hd). pose proof (pow10_18 rest ltac:(lia)).
      lia.
    + pose proof (decimal_bounds rest Hd). pose proof (pow10_18 rest ltac:(lia)).
      lia.
    + pose proof (decimal_bounds _ Hd). pose proof (pow10_18 _ Hshort). lia.
  - rewrite Atoi_slow_path by lia. rewrite ParseInt_signed. cbv zeta.
    cbn [snd].
    destruct (integer_split c rest Hi)
      as [(E & Hn & Hd & Hval) | [(E & Hn & Hd & Hval) | (E1 & E2 & Hd & Hval)]];
      rewrite Hval in *.
    + sign_tests. rewrite (ParseUint_nonempty _ Hn), (digits_cases _ Hd).
      pose proof (decimal_bounds rest Hd).
      destruct (Z.leb_spec (decimal rest) maxUint64); cbn [fst snd].
      * destruct (Z.ltb_spec (2 ^ 63) (decimal rest)); [reflexivity | lia].
      * reflexivity.
    + sign_tests. rewrite (ParseUint_nonempty _ Hn), (digits_cases _ Hd).
      pose proof (decimal_bounds rest Hd).
      destruct (Z.leb_spec (decimal rest) maxUint64); cbn [fst snd].
      * destruct (Z.leb_spec (2 ^ 63) (decimal rest)); [reflexivity | lia].
      * reflexivity.
    + sign_tests. rewrite (ParseUint_nonempty (String c rest) eq_refl),
        (digits_cases _ Hd).
      pose proof (decimal_bounds _ Hd).
      destruct (Z.leb_spec (decimal (String c rest)) maxUint64); cbn [fst snd].
      * destruct (Z.leb_spec (2 ^ 63) (decimal (String c rest)));
          [reflexivity | lia].
      * reflexivity.
Qed.

End atoi_spec.

Module atoi_reject.
Import GoInt strings strconv literal strings_facts int_facts literal_facts
  strconv_facts atoi_facts.

Lemma non_integer_split (c : ascii) (rest : string) :
  is_integer (String c rest) = false ->
  ((byte_of c = 45 \/ byte_of c = 43)
   /\ (rest = "" \/ (nonempty rest = true /\ all_digits rest = false)))
  \/ (byte_of c <> 45 /\ byte_of c <> 43
      /\ all_digits (String c rest) = false).
Proof.
  unfold is_integer, isSign.
  destruct (sign_cases c) as [E|[E|[E1 E2]]].
  - rewrite E. change (45 =? 43) with false. change (45 =? 45) with true.
    cbn [orb]. intros H. left. split; [now left|].
    destruct rest; [now left|]. right. split; [reflexivity|exact H].
  - rewrite E. change (43 =? 43) with true. change (43 =? 45) with false.
    cbn [orb]. intros H. left. split; [now right|].
    destruct rest; [now left|]. right. split; [reflexivity|exact H].
  - pose proof E1 as E1'. pose proof E2 as E2'.
    apply Z.eqb_neq in E1', E2'. rewrite E1', E2'. cbn [orb].
    intros H. right. tauto.
Qed.

(** [Atoi] rejects whatever is not an integer literal. *)
Theorem Atoi_other (s : string) :
  is_integer s = false -> snd (Atoi s) <> None.
Proof.
  destruct s as [|c rest]; [intros _; discriminate|]. intros Hi.
  pose proof (len_String c rest) as Hlen. pose proof (len_nonneg rest) as Hl0.
  destruct (Z.lt_ge_cases (len (String c rest)) 19) as [Hshort|Hlong].
  - rewrite Atoi_fast_path by lia. cbv zeta.
    destruct (non_integer_split c rest Hi)
      as [([E|E] & [-> | (Hn & Hd)]) | (E1 & E2 & Hd)];
      sign_tests; try discriminate.
    + apply nonempty_len in Hn.
      destruct (Z.ltb_spec (len rest) 1); [lia|].
      rewrite (Atoi_loop_other _ 0 Hd). discriminate.
    + apply nonempty_len in Hn.
      destruct (Z.ltb_spec (len rest) 1); [lia|].
      rewrite (Atoi_loop_other _ 0 Hd). discriminate.
    + rewrite (Atoi_loop_other _ 0 Hd). discriminate.
  - rewrite Atoi_slow_path by lia. rewrite ParseInt_signed. cbv zeta.
    cbn [snd].
    destruct (non_integer_split c rest Hi)
      as [([E|E] & [-> | (Hn & Hd)]) | (E1 & E2 & Hd)];
      sign_tests; try discriminate.
    + rewrite (ParseUint_nonempty _ Hn).
      destruct (ParseUint_loop_other rest 0 Hd) as [-> | ->];
        [unfold maxUint64; lia | discriminate | discriminate].
    + rewrite (ParseUint_nonempty _ Hn).
      destruct (ParseUint_loop_other rest 0 Hd) as [-> | ->];
        [unfold maxUint64; lia | discriminate | discriminate].
    + rewrite (ParseUint_nonempty (String c rest) eq_refl).
      destruct (ParseUint_loop_other (String c rest) 0 Hd) as [-> | ->];
        [unfold maxUint64; lia | discriminate | discriminate].
Qed.

End atoi_reject.

Module fmt_facts.
Import GoInt strings literal strings_facts int_facts literal_facts.

Lemma byte_of_digit_char (k : Z) :
  0 <= k <= 9 -> byte_of (ascii_of_N (Z.to_N (48 + k))) = 48 + k.
Proof.
  intros Hk. unfold byte_of. rewrite N_ascii_embedding by lia. lia.
Qed.

(** The digit loop of [%d] writes the decimal digits of [u] in front of
    the buffer. *)
Lemma fmtDigits_spec (fuel : nat) : forall u buf,
  (1 <= fuel)%nat -> 0 <= u < 10 ^ Z.of_nat fuel ->
  exists ds,
    fmt.fmtDigits fuel u buf = ds ++ buf
    /\ all_digits ds = true /\ nonempty ds = true /\ decimal ds = u.
Proof.
  induction fuel as [|f IH]; intros u buf Hf Hu; [lia|].
  cbn [fmt.fmtDigits].
  destruct (Z.leb_spec 10 u) as [Hbig|Hsmall].
  - assert (Hf1 : (1 <= f)%nat).
    { destruct f; [change (10 ^ Z.of_nat 1) with 10 in Hu; lia | lia]. }
    rewrite Nat2Z.inj_succ, Z.pow_succ_r in Hu by lia.
    assert (Hq : 0 <= u / 10 < 10 ^ Z.of_nat f).
    { split; [apply Z.div_pos; lia|].
      apply Z.div_lt_upper_bound; lia. }
    pose proof (Z.div_mod u 10 ltac:(lia)) as Hdm.
    pose proof (Z.mod_pos_bound u 10 ltac:(lia)) as Hm.
    set (ch := ascii_of_N (Z.to_N (48 + u - u / 10 * 10))).
    destruct (IH (u / 10) (String ch buf) Hf1 Hq) as (ds & E & Hd & Hn & Hv).
    exists (ds ++ String ch "").
    assert (Hch : byte_of ch = 48 + (u - u / 10 * 10)).
    { unfold ch. replace (48 + u - u / 10 * 10) with (48 + (u - u / 10 * 10))
        by lia. apply byte_of_digit_char. lia. }
    split; [rewrite E, app_assoc; reflexivity|].
    split.
    { rewrite all_digits_app, Hd. cbn [all_digits andb].
      rewrite andb_true_r. apply isDigit_range. lia. }
    split; [now destruct ds|].
    rewrite decimal_snoc, Hv, Hch. lia.
  - exists (String (ascii_of_N (Z.to_N (48 + u))) "").
    split; [reflexivity|].
    pose proof (byte_of_digit_char u ltac:(lia)) as Hch.
    split.
    { cbn [all_digits]. rewrite andb_true_r. apply isDigit_range. lia. }
    split; [reflexivity|].
    cbn [decimal]. rewrite Hch. change (len "") with 0.
    rewrite Z.pow_0_r. lia.
Qed.

(** [%d] renders an [int] as an integer literal of that value. *)
Theorem fmtInteger_spec (v : Z) :
  in_range v ->
  is_integer (fmt.fmtInteger v) = true /\ value (fmt.fmtInteger v) = v.
Proof.
  unfold in_range, minInt, maxInt. intros Hv. unfold fmt.fmtInteger.
  destruct (Z.lt_ge_cases v 0) as [Hneg|Hpos].
  - assert (Hu : wrapU v = v + 2 ^ 64).
    { unfold wrapU. symmetry. apply (Z.mod_unique _ _ (-1)); lia. }
    rewrite Hu.
    assert (Hw : wrap (v + 2 ^ 64) = v).
    { unfold wrap. symmetry.
      assert (E : v + 2 ^ 63 = (v + 2 ^ 64 + 2 ^ 63) mod 2 ^ 64)
        by (apply (Z.mod_unique _ _ 1); lia).
      lia. }
    rewrite Hw. destruct (Z.ltb_spec v 0); [|lia].
    assert (Hm : wrapU (- (v + 2 ^ 64)) = - v).
    { unfold wrapU. symmetry. apply (Z.mod_unique _ _ (-1)); lia. }
    rewrite Hm.
    destruct (fmtDigits_spec 20 (- v) "" ltac:(lia) ltac:(simpl; lia))
      as (ds & E & Hd & Hn & Hdv).
    rewrite E, app_empty_r.
    unfold is_integer, value, isSign.
    change (byte_of "-") with 45.
    change (45 =? 43) with false. change (45 =? 45) with true. cbn [orb].
    rewrite Hn, Hd, Hdv. split; [reflexivity | lia].
  - rewrite (wrapU_id v) by (unfold maxUint64; lia).
    rewrite (wrap_id v) by (unfold in_range, minInt, maxInt; lia).
    destruct (Z.ltb_spec v 0); [lia|].
    destruct (fmtDigits_spec 20 v "" ltac:(lia) ltac:(simpl; lia))
      as (ds & E & Hd & Hn & Hdv).
    rewrite E, app_empty_r.
    destruct ds as [|c ds]; [discriminate|].
    pose proof Hd as Hd'. cbn [all_digits] in Hd'.
    apply andb_true_iff in Hd' as [Hc _]. apply isDigit_range in Hc.
    unfold is_integer, value, isSign.
    destruct (Z.eqb_spec (byte_of c) 43); [lia|].
    destruct (Z.eqb_spec (byte_of c) 45); [lia|]. cbn [orb].
    split; [exact Hd | exact Hdv].
Qed.

End fmt_facts.

Module suffix_facts.
Import strings literal strings_facts literal_facts.

Lemma HasSuffix_lastc (s a : string) (c : ascii) :
  HasSuffix s (a ++ String c "") = true -> lastc s = Some c.
Proof.
  intros E. rewrite (HasSuffix_inv _ _ E), <- app_assoc.
  apply lastc_app_snoc.
Qed.

Lemma HasSuffix_two (s : string) (x y : ascii) :
  HasSuffix s (String x (String y "")) = true ->
  exists a, s = (a ++ String x "") ++ String y "".
Proof.
  intros E. exists (TrimSuffix s (String x (String y ""))).
  rewrite app_assoc. now apply HasSuffix_inv.
Qed.

Lemma not_digit_B : isDigit "B" = false.
Proof. reflexivity. Qed.

Section Literal.
Variable lit : string.
Hypothesis Hlit : is_integer lit = true.

Lemma lit_no_unit (a : string) (c : ascii) :
  isDigit c = false -> HasSuffix lit (a ++ String c "") = false.
Proof.
  intros Hc. destruct (HasSuffix lit _) eqn:E; [|reflexivity].
  apply HasSuffix_lastc in E.
  destruct (is_integer_lastc lit Hlit) as (d & Hd & Hd'). congruence.
Qed.

Lemma litB_no_two (x : ascii) :
  isDigit x = false ->
  HasSuffix (lit ++ "B") (String x "B") = false.
Proof.
  intros Hx. destruct (HasSuffix _ _) eqn:E; [|reflexivity].
  apply HasSuffix_two in E as [a E]. apply snoc_inj in E as [E _].
  destruct (is_integer_lastc lit Hlit) as (d & Hd & Hd').
  rewrite E, lastc_app_snoc in Hd. congruence.
Qed.

Lemma litKB_no_MB : HasSuffix (lit ++ "KB") "MB" = false.
Proof.
  destruct (HasSuffix _ _) eqn:E; [|reflexivity].
  apply HasSuffix_two in E as [a E].
  change (lit ++ "KB") with (lit ++ (String "K" "" ++ String "B" "")) in E.
  rewrite <- app_assoc in E.
  apply snoc_inj in E as [E _]. apply snoc_inj in E as [_ E]. discriminate.
Qed.

(** A literal, with or without one of the units, has nothing to
    trim. *)
Lemma TrimSpace_lit (f g : string -> string) (suf : string) (d : ascii) :
  lastc (lit ++ suf) = Some d -> plain d = true ->
  TrimSpace f g (lit ++ suf) = lit ++ suf.
Proof.
  destruct lit as [|c rest] eqn:El; [discriminate|].
  intros Hl Hd. cbn [append] in *.
  apply (TrimSpace_plain f g c (rest ++ suf) d);
    [now apply is_integer_first with rest | exact Hl | exact Hd].
Qed.

Lemma TrimSpace_bare (f g : string -> string) : TrimSpace f g lit = lit.
Proof.
  destruct (is_integer_lastc lit Hlit) as (d & Hd & Hd').
  pose proof (TrimSpace_lit f g "" d) as T. rewrite app_empty_r in T.
  apply T; [exact Hd | now apply isDigit_plain].
Qed.

Lemma TrimSpace_unit (f g : string -> string) (a : string) :
  TrimSpace f g (lit ++ (a ++ "B")) = lit ++ (a ++ "B").
Proof.
  apply (TrimSpace_lit f g _ "B"); [|reflexivity].
  rewrite <- app_assoc. apply lastc_app_snoc.
Qed.

End Literal.

End suffix_facts.

Module decoder_facts.
Import GoInt strings strconv literal strings_facts int_facts literal_facts
  suffix_facts.

Section Decoder.
Variables f g : string -> string.

(** The decoder on any input: trim, split off the unit, read the
    magnitude with [Atoi], multiply. *)
Lemma parse_accepts (s : string) :
  let t := TrimSpace f g s in
  is_integer (magnitude t) = true -> in_range (value (magnitude t)) ->
  parseUnitsBytes f g s = (wrap (value (magnitude t) * multiplier t), None).
Proof.
  intros t Hi Hv. unfold parseUnitsBytes. fold t.
  unfold magnitude, multiplier in *.
  destruct (HasSuffix t "MB");
    [unfold convertMemoryUnits; now rewrite (atoi_spec.Atoi_integer _ Hi Hv)|].
  destruct (HasSuffix t "KB");
    [unfold convertMemoryUnits; now rewrite (atoi_spec.Atoi_integer _ Hi Hv)|].
  rewrite (atoi_spec.Atoi_integer _ Hi Hv), Z.mul_1_r, wrap_id by exact Hv.
  reflexivity.
Qed.

Lemma parse_rejects (s : string) :
  is_integer (magnitude (TrimSpace f g s)) = false ->
  snd (parseUnitsBytes f g s) <> None.
Proof.
  intros Hi. apply atoi_reject.Atoi_other in Hi.
  unfold parseUnitsBytes. unfold magnitude in Hi.
  destruct (HasSuffix _ "MB").
  { unfold convertMemoryUnits.
    destruct (Atoi _) as [v [e|]]; [discriminate | now elim Hi]. }
  destruct (HasSuffix _ "KB").
  { unfold convertMemoryUnits.
    destruct (Atoi _) as [v [e|]]; [discriminate | now elim Hi]. }
  exact Hi.
Qed.

Lemma parse_out_of_range (s : string) :
  let t := TrimSpace f g s in
  is_integer (magnitude t) = true -> ~ in_range (value (magnitude t)) ->
  snd (parseUnitsBytes f g s) = Some ErrRange.
Proof.
  intros t Hi Hv. pose proof (atoi_spec.Atoi_range _ Hi Hv) as E.
  unfold parseUnitsBytes. fold t. unfold magnitude in E.
  destruct (HasSuffix t "MB").
  { unfold convertMemoryUnits.
    destruct (Atoi _) as [v [e|]]; [exact E | discriminate E]. }
  destruct (HasSuffix t "KB").
  { unfold convertMemoryUnits.
    destruct (Atoi _) as [v [e|]]; [exact E | discriminate E]. }
  exact E.
Qed.

Section Literal.
Variable lit : string.
Hypothesis Hlit : is_integer lit = true.

Lemma split_bare :
  magnitude (TrimSpace f g lit) = lit
  /\ multiplier (TrimSpace f g lit) = 1.
Proof.
  rewrite (TrimSpace_bare lit Hlit). unfold magnitude, multiplier.
  pose proof (lit_no_unit lit Hlit "M" "B" eq_refl) as H1.
  pose proof (lit_no_unit lit Hlit "K" "B" eq_refl) as H2.
  pose proof (lit_no_unit lit Hlit "" "B" eq_refl) as H3.
  cbn [append] in H1, H2, H3. rewrite H1, H2, H3.
  now split.
Qed.

Lemma split_B :
  magnitude (TrimSpace f g (lit ++ "B")) = lit
  /\ multiplier (TrimSpace f g (lit ++ "B")) = 1.
Proof.
  pose proof (TrimSpace_unit lit Hlit f g "") as T.
  cbn [append] in T. rewrite T.
  unfold magnitude, multiplier.
  pose proof (litB_no_two lit Hlit "M" eq_refl) as H1.
  pose proof (litB_no_two lit Hlit "K" eq_refl) as H2.
  rewrite H1, H2, HasSuffix_app, TrimSuffix_app.
  now split.
Qed.

Lemma split_KB :
  magnitude (TrimSpace f g (lit ++ "KB")) = lit
  /\ multiplier (TrimSpace f g (lit ++ "KB")) = 1024.
Proof.
  pose proof (TrimSpace_unit lit Hlit f g "K") as T.
  cbn [append] in T. rewrite T.
  unfold magnitude, multiplier.
  rewrite (litKB_no_MB lit), HasSuffix_app, TrimSuffix_app.
  now split.
Qed.

Lemma split_MB :
  magnitude (TrimSpace f g (lit ++ "MB")) = lit
  /\ multiplier (TrimSpace f g (lit ++ "MB")) = 1024 * 1024.
Proof.
  pose proof (TrimSpace_unit lit Hlit f g "M") as T.
  cbn [append] in T. rewrite T.
  unfold magnitude, multiplier.
  rewrite HasSuffix_app, TrimSuffix_app.
  now split.
Qed.

Lemma parse_bare :
  in_range (value lit) -> parseUnitsBytes f g lit = (value lit, None).
Proof.
  intros Hv. destruct split_bare as [Em Ek].
  rewrite parse_accepts; rewrite Em; try assumption.
  now rewrite Ek, Z.mul_1_r, wrap_id.
Qed.

Lemma parse_literal (suf : string) (mult : Z) :
  magnitude (TrimSpace f g (lit ++ suf)) = lit
  /\ multiplier (TrimSpace f g (lit ++ suf)) = mult ->
  in_range (value lit) ->
  parseUnitsBytes f g (lit ++ suf) = (wrap (value lit * mult), None).
Proof.
  intros [Em Ek] Hv. rewrite parse_accepts; rewrite Em; try assumption.
  now rewrite Ek.
Qed.

End Literal.
End Decoder.

End decoder_facts.

Module contains_facts.
Import literal strings_facts.

Lemma prefix_app (s b : string) : String.prefix s (s ++ b) = true.
Proof.
  induction s as [|c s IH]; cbn [append String.prefix]; [now destruct b|].
  destruct (ascii_dec c c); [exact IH | congruence].
Qed.

Lemma contains_app (a s b : string) : contains (a ++ s ++ b) s = true.
Proof.
  induction a as [|c a IH]; cbn [append].
  - destruct (s ++ b) eqn:E; cbn [contains]; rewrite <- E, prefix_app;
      reflexivity.
  - cbn [contains]. rewrite IH. apply orb_true_r.
Qed.

End contains_facts.

(* ================================================================= *)
(** * Facts about [time.ParseDuration] *)

Module time_facts.
Import strings time.

Lemma substring_length (s : string) : forall n m,
  (n + m <= String.length s)%nat -> String.length (substring n m s) = m.
Proof.
  induction s as [|c s IH]; intros [|n] [|m] Hl; simpl in *;
    try reflexivity; try lia.
  - rewrite (IH 0%nat m) by (simpl; lia). reflexivity.
  - apply (IH n 0%nat). lia.
  - apply (IH n (S m)). lia.
Qed.

Lemma from_length (i : nat) (s : string) :
  (i <= String.length s)%nat ->
  String.length (from i s) = (String.length s - i)%nat.
Proof. intros Hi. unfold from. apply substring_length. lia. Qed.

Lemma leadingInt_rest (s : string) : forall x v s1,
  leadingInt s x = Some (v, s1) -> (String.length s1 <= String.length s)%nat.
Proof.
  induction s as [|c s IH]; intros x v s1; cbn [leadingInt].
  - intros [= _ <-]. lia.
  - destruct (negb _); [intros [= _ <-]; lia|].
    destruct (_ <? x); [discriminate|].
    destruct (_ <? _); [discriminate|].
    intros E. apply IH in E. simpl. lia.
Qed.

Lemma leadingFraction_rest (s : string) : forall x k o f k' s2,
  leadingFraction s x k o = (f, k', s2) ->
  (String.length s2 <= String.length s)%nat.
Proof.
  induction s as [|c s IH]; intros x k o f k' s2; cbn [leadingFraction].
  - intros [= _ _ <-]. lia.
  - destruct (negb _); [intros [= _ _ <-]; lia|].
    destruct o; [intros E; apply IH in E; simpl; lia|].
    destruct (_ <? x); [intros E; apply IH in E; simpl; lia|].
    destruct (_ <? _); intros E; apply IH in E; simpl; lia.
Qed.

Lemma unitLen_le (s : string) : (unitLen s <= String.length s)%nat.
Proof.
  induction s as [|c s IH]; simpl; [lia|].
  destruct (_ || _); lia.
Qed.

Section Fuel.
Variable fractionOf : Z -> nat -> Z -> Z.

(** A round that goes on leaves a strictly shorter string. *)
Lemma ParseDuration_round_shrinks (s : string) (d : Z) (s' : string) (d' : Z) :
  ParseDuration_round fractionOf s d = inr (s', d') ->
  (String.length s' < String.length s)%nat.
Proof.
  unfold ParseDuration_round. destruct s as [|c0 s0]; [discriminate|].
  destruct (negb _); [discriminate|].
  destruct (leadingInt _ 0) as [[v s1]|] eqn:E1; [|discriminate].
  apply leadingInt_rest in E1.
  set (frac := match s1 with EmptyString => _ | String _ _ => _ end).
  assert (Hfrac : (String.length (snd (fst frac)) <= String.length s1)%nat).
  { subst frac. destruct s1 as [|c1 s1']; [simpl; lia|].
    destruct (byte_of c1 =? 46); [|simpl; lia].
    destruct (leadingFraction s1' 0 0 false) as [[f k] s2] eqn:E2.
    apply leadingFraction_rest in E2. simpl. lia. }
  destruct frac as [[[f k] s2] post]. cbn [fst snd] in Hfrac.
  destruct (_ && _); [discriminate|]. cbv zeta.
  pose proof (unitLen_le s2) as Hu.
  destruct (Nat.eqb_spec (unitLen s2) 0); [discriminate|].
  destruct (unitMap _); [|discriminate].
  destruct (_ <? v); [discriminate|].
  destruct (_ && _); [discriminate|].
  destruct (_ <? _); [discriminate|].
  intros [= <- _]. rewrite from_length by lia. lia.
Qed.

(** The loop does not depend on its bound once the bound covers the
    string: [ParseDuration] never stops for want of rounds. *)
Lemma ParseDuration_loop_fuel (n : nat) : forall s d f1 f2,
  (String.length s <= n)%nat -> (n <= f1)%nat -> (n <= f2)%nat ->
  ParseDuration_loop fractionOf f1 s d = ParseDuration_loop fractionOf f2 s d.
Proof.
  induction n as [|n IH]; intros s d f1 f2 Hs H1 H2.
  - destruct s; [now destruct f1, f2 | simpl in Hs; lia].
  - destruct s as [|c s]; [now destruct f1, f2|].
    destruct f1 as [|f1]; [lia|]. destruct f2 as [|f2]; [lia|].
    cbn [ParseDuration_loop].
    destruct (ParseDuration_round fractionOf (String c s) d)
      as [r|[s' d']] eqn:E; [reflexivity|].
    apply ParseDuration_round_shrinks in E.
    apply IH; lia.
Qed.

End Fuel.

End time_facts.

(* ================================================================= *)
(** * Properties of the control service *)

Section ServiceFacts.
Context {R : Type} `{trace.FlightRecorder R}.

Lemma Start_enabled (s : Service R) :
  trace.Enabled (recorder s) = true ->
  Start s = (Some AlreadyRunning, s).
Proof. intros E. unfold Start. now rewrite E. Qed.

Lemma Start_disabled (s : Service R) :
  trace.Enabled (recorder s) = false ->
  Start s = (fst (trace.Start (pushed s)),
             {| recorder := snd (trace.Start (pushed s));
                period := period s; size := size s |}).
Proof.
  intros E. unfold Start, pushed. rewrite E.
  now destruct (trace.Start _) as [err r3].
Qed.

Lemma Stop_disabled (s : Service R) :
  trace.Enabled (recorder s) = false ->
  Stop s = (Some NotRunning, s).
Proof. intros E. unfold Stop. now rewrite E. Qed.

Lemma Stop_enabled (s : Service R) :
  trace.Enabled (recorder s) = true ->
  Stop s = (fst (trace.Stop (recorder s)),
            {| recorder := snd (trace.Stop (recorder s));
               period := period s; size := size s |}).
Proof.
  intros E. unfold Stop. rewrite E. simpl.
  now destruct (trace.Stop _) as [err r1].
Qed.

Lemma Start_config (s : Service R) :
  period (snd (Start s)) = period s /\ size (snd (Start s)) = size s.
Proof.
  unfold Start. destruct (trace.Enabled _); [easy|].
  now destruct (trace.Start _).
Qed.

Lemma Stop_config (s : Service R) :
  period (snd (Stop s)) = period s /\ size (snd (Stop s)) = size s.
Proof.
  unfold Stop. destruct (trace.Enabled _); simpl; [|easy].
  now destruct (trace.Stop _).
Qed.

Lemma Snapshot_config (s : Service R) :
  period (snd (Snapshot s)) = period s /\ size (snd (Snapshot s)) = size s.
Proof.
  unfold Snapshot. destruct (trace.Enabled _); simpl; [|easy].
  destruct (trace.WriteTo _) as [[w [e|]] r1]; [|easy].
  now destruct (Is_ErrSnapshotActive e).
Qed.

Lemma Update_ok (s : Service R) (req : UpdateRequest.t) :
  fst (Update s req) = None.
Proof. reflexivity. Qed.

Lemma Update_period (s : Service R) (req : UpdateRequest.t) :
  period (snd (Update s req)) =
    match UpdateRequest.Period req with Some p => p | None => period s end.
Proof.
  unfold Update; simpl.
  destruct (UpdateRequest.Period req), (UpdateRequest.Size req); simpl;
    repeat match goal with
           | |- context [if ?b then _ else _] => destruct b; simpl
           end; reflexivity.
Qed.

Lemma Update_size (s : Service R) (req : UpdateRequest.t) :
  size (snd (Update s req)) =
    match UpdateRequest.Size req with Some n => n | None => size s end.
Proof.
  unfold Update; simpl.
  destruct (UpdateRequest.Period req), (UpdateRequest.Size req); simpl;
    repeat match goal with
           | |- context [if ?b then _ else _] => destruct b; simpl
           end; reflexivity.
Qed.

(** What [Update] does to the capability, call by call: the second
    test of the flag is made on the recorder the first push left. *)
Lemma Update_recorder (s : Service R) (req : UpdateRequest.t) :
  recorder (snd (Update s req)) =
    let r1 :=
      match UpdateRequest.Period req with
      | Some p =>
          if trace.Enabled (recorder s)
          then trace.SetPeriod (recorder s) p else recorder s
      | None => recorder s
      end in
    match UpdateRequest.Size req with
    | Some n => if trace.Enabled r1 then trace.SetSize r1 n else r1
    | None => r1
    end.
Proof.
  unfold Update; simpl.
  destruct (UpdateRequest.Period req), (UpdateRequest.Size req); simpl;
    destruct (trace.Enabled (recorder s)); simpl;
    try match goal with
        | |- context [if ?b then _ else _] => destruct b; simpl
        end; reflexivity.
Qed.

End ServiceFacts.

Lemma double_lawful : trace.Lawful double.Recorder.
Proof. split; reflexivity. Qed.

(** C2, as stated, fails: a [Start] whose capability start call fails
    returns an error and has changed the capability's period and size
    (here from 10s and 10MiB to the stored 1s and 64MiB). *)
Lemma failed_start_keeps_pushes :
  fst (Start busy_service) = Some (errorString "tracing is already enabled")
  /\ double.targetPeriod (recorder (snd (Start busy_service)))
     <> double.targetPeriod (recorder busy_service)
  /\ double.targetSize (recorder (snd (Start busy_service)))
     <> double.targetSize (recorder busy_service)
  /\ snd (Start busy_service) <> busy_service.
Proof.
  split; [reflexivity|].
  split; [discriminate|].
  split; discriminate.
Qed.

(** C2, amended: [Start] and [Stop] never change the stored period and
    size; refused by the service's own guard they change nothing at all;
    once the guard of [Start] has passed, the capability is left as its
    own start left it after the period and the size were pushed, also
    when that start failed (nothing is rolled back), and [Stop] leaves
    the capability as its own stop left it; [Update] never fails and
    stores exactly the fields of the request. *)
Theorem failed_operations {R : Type} `{trace.FlightRecorder R} (s : Service R) :
  (period (snd (Start s)) = period s /\ size (snd (Start s)) = size s)
  /\ (period (snd (Stop s)) = period s /\ size (snd (Stop s)) = size s)
  /\ (trace.Enabled (recorder s) = true ->
      fst (Start s) = Some AlreadyRunning /\ snd (Start s) = s)
  /\ (trace.Enabled (recorder s) = false ->
      fst (Stop s) = Some NotRunning /\ snd (Stop s) = s)
  /\ (trace.Enabled (recorder s) = false ->
      fst (Start s) = fst (trace.Start (pushed s))
      /\ recorder (snd (Start s)) = snd (trace.Start (pushed s)))
  /\ (trace.Enabled (recorder s) = true ->
      fst (Stop s) = fst (trace.Stop (recorder s))
      /\ recorder (snd (Stop s)) = snd (trace.Stop (recorder s)))
  /\ (forall req,
        fst (Update s req) = None
        /\ period (snd (Update s req)) =
             match UpdateRequest.Period req with Some p => p | None => period s end
        /\ size (snd (Update s req)) =
             match UpdateRequest.Size req with Some n => n | None => size s end).
Proof.
  split; [apply Start_config|]. split; [apply Stop_config|].
  split; [intros E; now rewrite (Start_enabled s E)|].
  split; [intros E; now rewrite (Stop_disabled s E)|].
  split; [intros E; now rewrite (Start_disabled s E)|].
  split; [intros E; now rewrite (Stop_enabled s E)|].
  intros req. split; [apply Update_ok|].
  split; [apply Update_period | apply Update_size].
Qed.

Lemma failed_operations_witness :
  trace.Enabled (recorder busy_service) = false
  /\ fst (Stop busy_service) = Some NotRunning
  /\ snd (Stop busy_service) = busy_service
  /\ double.targetPeriod (recorder (snd (Start busy_service))) = period busy_service.
Proof.
  split; [reflexivity|].
  destruct (failed_operations busy_service) as (_ & _ & _ & Hstop & Hstart & _).
  destruct (Hstop eq_refl) as [E1 E2].
  destruct (Hstart eq_refl) as [_ E3].
  split; [exact E1|]. split; [exact E2|].
  rewrite E3. reflexivity.
Defined.

(** C3: [Start] fails with AlreadyRunning when the recorder is enabled
    and then changes nothing; otherwise it pushes the stored period, then
    the stored size, then starts the capability and returns that call's
    error as it is.  [Stop] fails with NotRunning when the recorder is
    not enabled; otherwise it returns the error of the capability's stop
    as it is.  So, as long as the capability does not itself answer with
    the service's error, each guard error is returned exactly in its
    state. *)
Theorem start_stop_guards {R : Type} `{trace.FlightRecorder R} (s : Service R) :
  (trace.Enabled (recorder s) = true ->
   Start s = (Some AlreadyRunning, s) /\ Status (snd (Start s)) = Status s)
  /\ (trace.Enabled (recorder s) = false ->
      Start s =
        (fst (trace.Start
                (trace.SetSize (trace.SetPeriod (recorder s) (period s)) (size s))),
         {| recorder :=
              snd (trace.Start
                     (trace.SetSize (trace.SetPeriod (recorder s) (period s))
                        (size s)));
            period := period s; size := size s |}))
  /\ (trace.Enabled (recorder s) = false -> Stop s = (Some NotRunning, s))
  /\ (trace.Enabled (recorder s) = true ->
      Stop s = (fst (trace.Stop (recorder s)),
                {| recorder := snd (trace.Stop (recorder s));
                   period := period s; size := size s |}))
  /\ (fst (trace.Start (pushed s)) <> Some AlreadyRunning ->
      (fst (Start s) = Some AlreadyRunning <-> trace.Enabled (recorder s) = true))
  /\ (fst (trace.Stop (recorder s)) <> Some NotRunning ->
      (fst (Stop s) = Some NotRunning <-> trace.Enabled (recorder s) = false)).
Proof.
  split; [intros E; now rewrite (Start_enabled s E)|].
  split; [apply Start_disabled|].
  split; [apply Stop_disabled|].
  split; [apply Stop_enabled|].
  split.
  - intros Hcap. destruct (trace.Enabled (recorder s)) eqn:E.
    + rewrite (Start_enabled s E). easy.
    + rewrite (Start_disabled s E). simpl. split; [contradiction | discriminate].
  - intros Hcap. destruct (trace.Enabled (recorder s)) eqn:E.
    + rewrite (Stop_enabled s E). simpl. split; [contradiction | discriminate].
    + rewrite (Stop_disabled s E). easy.
Qed.

Lemma start_stop_guards_witness :
  Start running_service = (Some AlreadyRunning, running_service)
  /\ fst (Stop running_service) = None
  /\ (fst (Start busy_service) = Some AlreadyRunning <-> false = true).
Proof.
  destruct (start_stop_guards running_service) as (H1 & _ & _ & H4 & _).
  destruct (start_stop_guards busy_service) as (_ & _ & _ & _ & H5 & _).
  split; [apply (H1 eq_refl)|].
  split; [rewrite (H4 eq_refl); reflexivity|].
  apply H5. discriminate.
Defined.

(** C4: [Update] always succeeds; it stores exactly the fields present
    in the request and keeps the others; the capability receives a
    present field exactly when the recorder is enabled at the time of the
    update, and is not called otherwise. *)
Theorem update_applies {R : Type} `{trace.FlightRecorder R}
    (L : trace.Lawful R) (s : Service R) (req : UpdateRequest.t) :
  fst (Update s req) = None
  /\ period (snd (Update s req)) =
       match UpdateRequest.Period req with Some p => p | None => period s end
  /\ size (snd (Update s req)) =
       match UpdateRequest.Size req with Some n => n | None => size s end
  /\ recorder (snd (Update s req)) =
       if trace.Enabled (recorder s) then
         let r1 :=
           match UpdateRequest.Period req with
           | Some p => trace.SetPeriod (recorder s) p
           | None => recorder s
           end in
         match UpdateRequest.Size req with
         | Some n => trace.SetSize r1 n
         | None => r1
         end
       else recorder s.
Proof.
  split; [apply Update_ok|].
  split; [apply Update_period|].
  split; [apply Update_size|].
  rewrite Update_recorder; cbv zeta.
  destruct (trace.Enabled (recorder s)) eqn:E.
  - destruct (UpdateRequest.Period req) as [p|], (UpdateRequest.Size req) as [n|];
      try reflexivity.
    + now rewrite (trace.Enabled_SetPeriod L), E.
    + now rewrite E.
  - destruct (UpdateRequest.Period req) as [p|], (UpdateRequest.Size req) as [n|];
      try reflexivity; now rewrite E.
Qed.

Lemma update_applies_witness :
  let req := {| UpdateRequest.Period := Some (2 * time.Second);
                UpdateRequest.Size := None |} in
  period (snd (Update running_service req)) = 2 * time.Second
  /\ size (snd (Update running_service req)) = 64 * 1024 * 1024
  /\ double.targetPeriod (recorder (snd (Update running_service req)))
     = 2 * time.Second
  /\ recorder (snd (Update busy_service req)) = recorder busy_service.
Proof.
  intros req.
  destruct (update_applies double_lawful running_service req)
    as (_ & Hp & Hs & Hr).
  destruct (update_applies double_lawful busy_service req)
    as (_ & _ & _ & Hr').
  split; [exact Hp|]. split; [exact Hs|].
  split; [rewrite Hr; reflexivity | exact Hr'].
Defined.

Lemma Is_ErrSnapshotActive_wraps (e : error) :
  Is_ErrSnapshotActive e = true <-> wraps_active e.
Proof.
  split.
  - induction e as [|msg|msg e IH]; cbn [Is_ErrSnapshotActive]; intros E.
    + constructor.
    + discriminate E.
    + constructor. now apply IH.
  - induction 1; cbn [Is_ErrSnapshotActive]; [reflexivity | assumption].
Qed.

(** C6: [Snapshot] fails with NotRunning when the recorder is not
    enabled.  Otherwise the capability writes into a fresh buffer: on
    success the result holds exactly the bytes written; an error whose
    chain holds the capability's snapshot-active value gives
    SnapshotInProgress; any other error gives WriteFailed, which wraps
    the cause and differs from SnapshotInProgress.  In particular the
    snapshot-active value itself, also behind a wrapping, gives
    SnapshotInProgress with no bytes, and an error made elsewhere gives
    WriteFailed. *)
Theorem snapshot_outcomes {R : Type} `{trace.FlightRecorder R} (s : Service R) :
  (trace.Enabled (recorder s) = false ->
   Snapshot s = (bytes.nil, Some NotRunning, s))
  /\ (trace.Enabled (recorder s) = true ->
      forall written err r1,
        trace.WriteTo (recorder s) = (written, err, r1) ->
        let s1 := {| recorder := r1; period := period s; size := size s |} in
        match err with
        | None =>
            exists b, Snapshot s = (b, None, s1) /\ bytes.to_list b = written
        | Some e =>
            if Is_ErrSnapshotActive e
            then Snapshot s = (bytes.nil, Some SnapshotInProgress, s1)
            else Snapshot s = (bytes.nil, Some (WriteFailed e), s1)
                 /\ Unwrap (WriteFailed e) = Some e
                 /\ WriteFailed e <> SnapshotInProgress
        end)
  /\ (trace.Enabled (recorder s) = true ->
      forall written r1,
        trace.WriteTo (recorder s) = (written, Some ErrSnapshotActive, r1) ->
        Snapshot s
        = (bytes.nil,
           Some (errorString "flight recorder snapshot already in progress"),
           {| recorder := r1; period := period s; size := size s |}))
  /\ (trace.Enabled (recorder s) = true ->
      forall written e r1,
        trace.WriteTo (recorder s) = (written, Some e, r1) ->
        let s1 := {| recorder := r1; period := period s; size := size s |} in
        (wraps_active e ->
         Snapshot s = (bytes.nil, Some SnapshotInProgress, s1))
        /\ (~ wraps_active e ->
            Snapshot s
            = (bytes.nil,
               Some (wrapError ("failed to write snapshot: " ++ Error e) e),
               s1)))
  /\ (trace.Enabled (recorder s) = true ->
      forall written msg r1,
        trace.WriteTo (recorder s) = (written, Some (errorString msg), r1) ->
        Snapshot s
        = (bytes.nil,
           Some (wrapError ("failed to write snapshot: " ++ msg)
                   (errorString msg)),
           {| recorder := r1; period := period s; size := size s |})).
Proof.
  split.
  { intros E. unfold Snapshot. now rewrite E. }
  split.
  { intros E written err r1 W s1. unfold Snapshot. rewrite E, W. simpl.
    destruct err as [e|].
    + destruct (Is_ErrSnapshotActive e); [reflexivity|].
      repeat split. discriminate.
    + exists (bytes.Write bytes.zero written). split; [reflexivity|].
      now destruct written. }
  split.
  { intros E written r1 W. unfold Snapshot. rewrite E, W. reflexivity. }
  split.
  { intros E written e r1 W s1. unfold Snapshot. rewrite E, W. cbn [negb].
    split.
    - intros Ha. apply Is_ErrSnapshotActive_wraps in Ha. now rewrite Ha.
    - intros Hn. destruct (Is_ErrSnapshotActive e) eqn:Ei; [|reflexivity].
      apply Is_ErrSnapshotActive_wraps in Ei. contradiction. }
  intros E written msg r1 W. unfold Snapshot. rewrite E, W. reflexivity.
Qed.

Lemma snapshot_outcomes_witness :
  Snapshot busy_service = (bytes.nil, Some NotRunning, busy_service)
  /\ (exists b, Snapshot running_service = (b, None, running_service)
                /\ bytes.to_list b = [Byte.x01; Byte.x02; Byte.x03])
  /\ Snapshot exporting_service
     = (bytes.nil,
        Some (errorString "flight recorder snapshot already in progress"),
        exporting_service)
  /\ Snapshot failing_service
     = (bytes.nil,
        Some (wrapError "failed to write snapshot: short write"
                (errorString "short write")),
        failing_service).
Proof.
  destruct (snapshot_outcomes busy_service) as [H1 _].
  destruct (snapshot_outcomes running_service) as (_ & H2 & _).
  destruct (snapshot_outcomes exporting_service) as (_ & _ & H3 & _).
  destruct (snapshot_outcomes failing_service) as (_ & _ & _ & _ & H5).
  split; [apply (H1 eq_refl)|].
  split; [exact (H2 eq_refl _ None _ eq_refl)|].
  split.
  - exact (H3 eq_refl [Byte.x01] (recorder exporting_service) eq_refl).
  - exact (H5 eq_refl [Byte.x01; Byte.x02] "short write"
             (recorder failing_service) eq_refl).
Defined.

(** C7: [Status] returns the capability's enabled flag with the stored
    period and size (it has no error result); the service [InitService]
    makes on first use reports disabled, one second and 64MiB, and every
    later call hands out the service already made. *)
Theorem status_after_init {R : Type} `{trace.FlightRecorder R}
    (L : trace.Lawful R) :
  (forall s : Service R,
      StatusResponse.Enabled (Status s) = trace.Enabled (recorder s)
      /\ StatusResponse.Period (Status s) = period s
      /\ StatusResponse.Size (Status s) = size s)
  /\ (exists svc g,
        InitService (R := R) globals0 = (Some svc, g)
        /\ Status svc = {| StatusResponse.Enabled := false;
                           StatusResponse.Period := 1000000000;
                           StatusResponse.Size := 67108864 |}
        /\ InitService g = (Some svc, g)).
Proof.
  split; [easy|].
  eexists _, _. split; [reflexivity|].
  split; [|reflexivity].
  unfold Status; simpl. now rewrite (trace.Enabled_New L).
Qed.

Lemma status_after_init_witness :
  exists svc g,
    InitService (R := double.Recorder) globals0 = (Some svc, g)
    /\ Status svc = {| StatusResponse.Enabled := false;
                       StatusResponse.Period := 1000000000;
                       StatusResponse.Size := 67108864 |}
    /\ InitService g = (Some svc, g).
Proof. exact (proj2 (status_after_init double_lawful)). Defined.

(** C10: whenever [Snapshot] returns an error its byte result is nil,
    whatever the capability had written before failing. *)
Theorem snapshot_error_nil {R : Type} `{trace.FlightRecorder R}
    (s s' : Service R) (b : bytes.slice) (e : error) :
  Snapshot s = (b, Some e, s') -> b = bytes.nil.
Proof.
  unfold Snapshot. destruct (trace.Enabled _); simpl.
  - destruct (trace.WriteTo _) as [[w [e0|]] r1].
    + destruct (Is_ErrSnapshotActive e0); congruence.
    + congruence.
  - congruence.
Qed.

Lemma snapshot_error_nil_witness :
  Snapshot failing_service =
    (bytes.nil, Some (WriteFailed (errorString "short write")), failing_service)
  /\ fst (fst (Snapshot failing_service)) = bytes.nil.
Proof.
  split; [reflexivity|].
  apply (snapshot_error_nil failing_service failing_service _
           (WriteFailed (errorString "short write"))).
  reflexivity.
Defined.

(* ================================================================= *)
(** * Properties of the codec *)

Import GoInt strings strconv literal.

(** [UnmarshalJSON] hands the error of [json.Unmarshal] on and leaves
    the request alone; otherwise it decodes the two fields. *)
Lemma UnmarshalJSON_json_error
    (jU : list Byte.byte -> UpdateAlias * option error)
    (f g : string -> string) (fr : Z -> nat -> Z -> Z)
    (u : UpdateRequest.t) (data : list Byte.byte) (t : UpdateAlias) (e : error) :
  jU data = (t, Some e) -> UnmarshalJSON jU f g fr u data = (Some e, u).
Proof. intros E. unfold UnmarshalJSON. now rewrite E. Qed.

Lemma UnmarshalJSON_decoded
    (jU : list Byte.byte -> UpdateAlias * option error)
    (f g : string -> string) (fr : Z -> nat -> Z -> Z)
    (u : UpdateRequest.t) (data : list Byte.byte) (t : UpdateAlias) :
  jU data = (t, None) ->
  UnmarshalJSON jU f g fr u data = UnmarshalJSON_alias f g fr u t.
Proof. intros E. unfold UnmarshalJSON. now rewrite E. Qed.



(** C9: the size decoder takes a negative magnitude without complaint:
    ["-1MB"] is -1048576 bytes, ["-5"] is -5, and so for the literal of
    every negative [int]; the update request then carries the negative
    size, and [Update] stores it as it is, so that [Status] reports it. *)
Theorem negative_sizes (f g : string -> string) (fr : Z -> nat -> Z -> Z) :
  parseUnitsBytes f g "-1MB" = (-1048576, None)
  /\ parseUnitsBytes f g "-5" = (-5, None)
  /\ (forall v, GoInt.minInt <= v < 0 ->
        parseUnitsBytes f g (fmt.fmtInteger v) = (v, None))
  /\ (forall u,
        UnmarshalJSON_alias f g fr u {| tPeriod := None; tSize := Some "-1MB" |}
        = (None, {| UpdateRequest.Period := None;
                    UpdateRequest.Size := Some (-1048576) |}))
  /\ (forall (R : Type) (C : trace.FlightRecorder R) (s : Service R) (n : Z),
        n < 0 ->
        let req := {| UpdateRequest.Period := None;
                      UpdateRequest.Size := Some n |} in
        fst (Update s req) = None
        /\ size (snd (Update s req)) = n
        /\ StatusResponse.Size (Status (snd (Update s req))) = n).
Proof.
  split; [reflexivity|]. split; [reflexivity|].
  split.
  { intros v Hv.
    assert (Hr : GoInt.in_range v)
      by (unfold GoInt.in_range, GoInt.minInt, GoInt.maxInt in *; lia).
    destruct (fmt_facts.fmtInteger_spec v Hr) as [Hi Hval].
    rewrite <- Hval at 2. apply decoder_facts.parse_bare; [exact Hi|].
    now rewrite Hval. }
  split; [reflexivity|].
  intros R C s n Hn req.
  split; [reflexivity|].
  assert (E : size (snd (Update s req)) = n) by apply (Update_size s req).
  split; [exact E|]. exact E.
Qed.

Lemma negative_sizes_witness :
  parseUnitsBytes no_trim no_trim "-9223372036854775808"
    = (-9223372036854775808, None)
  /\ StatusResponse.Size
       (Status (snd (Update running_service
                       {| UpdateRequest.Period := None;
                          UpdateRequest.Size := Some (-1048576) |})))
     = -1048576.
Proof.
  destruct (negative_sizes no_trim no_trim no_fraction) as (_ & _ & H3 & _ & H5).
  split.
  - apply (H3 (-9223372036854775808)).
    unfold GoInt.minInt. simpl. lia.
  - apply (H5 _ _ running_service (-1048576)). lia.
Defined.

(** C8: the period of an update request is decoded with
    [time.ParseDuration]: when that accepts the text the request carries
    its value; when it rejects the text the decoder fails with
    InvalidDuration, whose message contains the text as it was given.
    ["100ms"] is a hundred milliseconds; ["2x"] is rejected. *)
Theorem duration_decoder (f g : string -> string) (fr : Z -> nat -> Z -> Z)
    (u : UpdateRequest.t) :
  (forall s d,
      time.ParseDuration fr s = (d, None) ->
      UnmarshalJSON_alias f g fr u {| tPeriod := Some s; tSize := None |}
      = (None, {| UpdateRequest.Period := Some d;
                  UpdateRequest.Size := UpdateRequest.Size u |}))
  /\ (forall s d e sz,
        time.ParseDuration fr s = (d, Some e) ->
        UnmarshalJSON_alias f g fr u {| tPeriod := Some s; tSize := sz |}
        = (Some (InvalidDuration s),
           {| UpdateRequest.Period := None;
              UpdateRequest.Size := UpdateRequest.Size u |})
        /\ literal.contains (Error (InvalidDuration s)) s = true)
  /\ time.ParseDuration fr "100ms" = (100 * time.Millisecond, None)
  /\ UnmarshalJSON_alias f g fr u {| tPeriod := Some "100ms"; tSize := None |}
     = (None, {| UpdateRequest.Period := Some 100000000;
                 UpdateRequest.Size := UpdateRequest.Size u |})
  /\ snd (time.ParseDuration fr "2x") <> None
  /\ UnmarshalJSON_alias f g fr u {| tPeriod := Some "2x"; tSize := None |}
     = (Some (InvalidDuration "2x"),
        {| UpdateRequest.Period := None;
           UpdateRequest.Size := UpdateRequest.Size u |}).
Proof.
  split.
  { intros s d E. unfold UnmarshalJSON_alias. cbn [tPeriod tSize].
    now rewrite E. }
  split.
  { intros s d e sz E. split.
    - unfold UnmarshalJSON_alias. cbn [tPeriod tSize]. now rewrite E.
    - apply contains_facts.contains_app. }
  split; [reflexivity|]. split; [reflexivity|].
  split; [discriminate | reflexivity].
Qed.

Lemma duration_decoder_witness :
  UnmarshalJSON_alias no_trim no_trim no_fraction
    {| UpdateRequest.Period := None; UpdateRequest.Size := Some 5 |}
    {| tPeriod := Some "1h30m"; tSize := None |}
  = (None, {| UpdateRequest.Period := Some 5400000000000;
              UpdateRequest.Size := Some 5 |})
  /\ literal.contains (Error (InvalidDuration "soon")) "soon" = true.
Proof.
  destruct (duration_decoder no_trim no_trim no_fraction
              {| UpdateRequest.Period := None; UpdateRequest.Size := Some 5 |})
    as (H1 & H2 & _).
  split.
  - apply (H1 "1h30m" 5400000000000). reflexivity.
  - apply (H2 "soon" 0 time.InvalidDuration None). reflexivity.
Defined.

(** C1, as stated, fails: exactly one megabyte is not greater than one
    megabyte, and is rendered in kilobytes. *)
Lemma one_megabyte_in_kilobytes :
  formatMemoryUnits 1048576 = "1024KB"
  /\ aSize (MarshalJSON_alias (fun _ => "")
              {| StatusResponse.Enabled := false;
                 StatusResponse.Period := 0;
                 StatusResponse.Size := 1048576 |}) <> "1MB".
Proof. split; [reflexivity | discriminate]. Qed.

(** C1, amended: a size above 1048576 is rendered as its whole
    megabytes, a size above 1024 and up to 1048576 as its whole
    kilobytes, every other size in bytes; the number is the integer
    quotient, printed by [%d].  So 1048576 gives ["1024KB"], 1048577
    gives ["1MB"] and 0 gives ["0B"]. *)
Theorem size_encoder (D : time.Duration -> string) (st : StatusResponse.t) :
  GoInt.in_range (StatusResponse.Size st) ->
  let n := StatusResponse.Size st in
  let enc := aSize (MarshalJSON_alias D st) in
  (1048576 < n ->
   enc = fmt.fmtInteger (n / 1048576) ++ "MB"
   /\ literal.value (fmt.fmtInteger (n / 1048576)) = n / 1048576
   /\ (n / 1048576) * 1048576 <= n < (n / 1048576 + 1) * 1048576)
  /\ (1024 < n <= 1048576 ->
      enc = fmt.fmtInteger (n / 1024) ++ "KB"
      /\ literal.value (fmt.fmtInteger (n / 1024)) = n / 1024
      /\ (n / 1024) * 1024 <= n < (n / 1024 + 1) * 1024)
  /\ (n <= 1024 ->
      enc = fmt.fmtInteger n ++ "B"
      /\ literal.value (fmt.fmtInteger n) = n)
  /\ formatMemoryUnits 1048576 = "1024KB"
  /\ formatMemoryUnits 1048577 = "1MB"
  /\ (n = 0 -> enc = "0B").
Proof.
  intros Hr n enc. subst enc. unfold MarshalJSON_alias. cbn [aSize]. fold n.
  assert (Henc : (if negb (n =? 0) then formatMemoryUnits n else "0B")
                 = formatMemoryUnits n).
  { destruct (Z.eqb_spec n 0) as [->|]; reflexivity. }
  rewrite Henc. clear Henc.
  pose proof Hr as Hr'. unfold GoInt.in_range, GoInt.minInt, GoInt.maxInt in Hr'.
  split.
  { intros Hn. unfold formatMemoryUnits, fmt.Sprintf_d.
    change (1024 * 1024) with 1048576.
    destruct (Z.ltb_spec 1048576 n); [|lia].
    rewrite int_facts.quo_div by (unfold GoInt.maxInt; lia).
    pose proof (Z.div_mod n 1048576 ltac:(lia)).
    pose proof (Z.mod_pos_bound n 1048576 ltac:(lia)).
    split; [reflexivity|]. split; [|lia].
    apply fmt_facts.fmtInteger_spec.
    unfold GoInt.in_range, GoInt.minInt, GoInt.maxInt. lia. }
  split.
  { intros Hn. unfold formatMemoryUnits, fmt.Sprintf_d.
    change (1024 * 1024) with 1048576.
    destruct (Z.ltb_spec 1048576 n); [lia|].
    destruct (Z.ltb_spec 1024 n); [|lia].
    rewrite int_facts.quo_div by (unfold GoInt.maxInt; lia).
    pose proof (Z.div_mod n 1024 ltac:(lia)).
    pose proof (Z.mod_pos_bound n 1024 ltac:(lia)).
    split; [reflexivity|]. split; [|lia].
    apply fmt_facts.fmtInteger_spec.
    unfold GoInt.in_range, GoInt.minInt, GoInt.maxInt. lia. }
  split.
  { intros Hn. unfold formatMemoryUnits, fmt.Sprintf_d.
    change (1024 * 1024) with 1048576.
    destruct (Z.ltb_spec 1048576 n); [lia|].
    destruct (Z.ltb_spec 1024 n); [lia|].
    split; [reflexivity|]. now apply fmt_facts.fmtInteger_spec. }
  split; [reflexivity|]. split; [reflexivity|].
  intros ->. reflexivity.
Qed.

Lemma size_encoder_witness :
  aSize (MarshalJSON_alias (fun _ => "1s")
           {| StatusResponse.Enabled := false;
              StatusResponse.Period := 1000000000;
              StatusResponse.Size := 67108864 |})
  = fmt.fmtInteger (67108864 / 1048576) ++ "MB".
Proof.
  assert (Hr : GoInt.in_range 67108864)
    by (unfold GoInt.in_range, GoInt.minInt, GoInt.maxInt; simpl; lia).
  destruct (size_encoder (fun _ => "1s")
              {| StatusResponse.Enabled := false;
                 StatusResponse.Period := 1000000000;
                 StatusResponse.Size := 67108864 |} Hr) as (H & _).
  apply H. simpl. lia.
Defined.

(* ================================================================= *)
(** * Further properties of the control service *)

Lemma in_step_step (s : Service double.Recorder) (c : call) :
  in_step s -> in_step (step s c).
Proof.
  unfold in_step. destruct s as [[en tp ts se st rg we] p n].
  destruct c as [| | | |[rp rn]]; cbn [step].
  - tauto.
  - unfold Start; cbn. destruct en; cbn; [tauto|].
    unfold double.start; cbn. destruct se; cbn; intuition congruence.
  - unfold Stop; cbn. destruct en; cbn; intuition congruence.
  - unfold Snapshot; cbn. destruct en; cbn; [|intuition congruence].
    destruct we as [e|]; cbn; [|tauto].
    destruct (Is_ErrSnapshotActive e); cbn; tauto.
  - unfold Update; cbn. destruct rp, rn, en; cbn; intuition congruence.
Qed.

(** X1 (on the test double): whatever calls are made, in whatever
    order, a recorder that is running works with the period and the size
    the service has stored. *)
Theorem running_recorder_in_step (s : Service double.Recorder) (calls : list call) :
  in_step s -> in_step (run s calls).
Proof.
  revert s. induction calls as [|c calls IH]; intros s Hs; [exact Hs|].
  apply IH. now apply in_step_step.
Qed.

Lemma running_recorder_in_step_witness :
  let s1 :=
    run fresh_service
      [CallStart;
       CallUpdate {| UpdateRequest.Period := Some (2 * time.Second);
                     UpdateRequest.Size := None |};
       CallSnapshot] in
  let s2 :=
    run running_service
      [CallUpdate {| UpdateRequest.Period := None;
                     UpdateRequest.Size := Some (128 * 1024 * 1024) |};
       CallStop; CallStart] in
  (double.enabled (recorder s1) = true
   /\ double.targetPeriod (recorder s1) = 2 * time.Second
   /\ double.targetSize (recorder s1) = 64 * 1024 * 1024)
  /\ (double.enabled (recorder s2) = true
      /\ double.targetPeriod (recorder s2) = 1 * time.Second
      /\ double.targetSize (recorder s2) = 128 * 1024 * 1024).
Proof.
  intros s1 s2.
  assert (H1 : in_step s1).
  { apply (running_recorder_in_step fresh_service). intros E. discriminate E. }
  assert (H2 : in_step s2).
  { apply (running_recorder_in_step running_service). intros _.
    split; reflexivity. }
  split.
  - split; [reflexivity|]. destruct (H1 eq_refl) as [A B].
    split; [rewrite A | rewrite B]; reflexivity.
  - split; [reflexivity|]. destruct (H2 eq_refl) as [A B].
    split; [rewrite A | rewrite B]; reflexivity.
Defined.

(** X2: a request made while the recorder is stopped does not reach the
    capability; the next [Start] hands the capability's start a recorder
    set to the period and size the request left in the service. *)
Theorem update_then_start {R : Type} `{trace.FlightRecorder R}
    (s : Service R) (req : UpdateRequest.t) :
  trace.Enabled (recorder s) = false ->
  recorder (snd (Update s req)) = recorder s
  /\ Start (snd (Update s req)) =
       (fst (trace.Start
               (trace.SetSize
                  (trace.SetPeriod (recorder s) (period_after s req))
                  (size_after s req))),
        {| recorder :=
             snd (trace.Start
                    (trace.SetSize
                       (trace.SetPeriod (recorder s) (period_after s req))
                       (size_after s req)));
           period := period_after s req;
           size := size_after s req |}).
Proof.
  intros E.
  assert (Er : recorder (snd (Update s req)) = recorder s).
  { rewrite Update_recorder. cbv zeta. rewrite E.
    destruct (UpdateRequest.Period req), (UpdateRequest.Size req);
      now rewrite ?E. }
  split; [exact Er|].
  rewrite Start_disabled by now rewrite Er.
  unfold pushed. rewrite Er, Update_period, Update_size. reflexivity.
Qed.

Lemma update_then_start_witness :
  double.targetPeriod
    (recorder
       (snd (Start (snd (Update busy_service
                           {| UpdateRequest.Period := Some (2 * time.Second);
                              UpdateRequest.Size := None |})))))
  = 2 * time.Second.
Proof.
  destruct (update_then_start busy_service
              {| UpdateRequest.Period := Some (2 * time.Second);
                 UpdateRequest.Size := None |}) as [_ E]; [reflexivity|].
  rewrite E. reflexivity.
Defined.

(** X3: with a capability whose successful start sets the enabled flag
    and whose stop clears it, a second [Start] after a successful one is
    refused with AlreadyRunning and changes nothing; after a [Stop] that
    reached the capability, whatever it answered, [Stop] and [Snapshot]
    are refused with NotRunning. *)
Theorem start_twice_stop_twice {R : Type} `{trace.FlightRecorder R}
    (s s' : Service R) :
  (forall r r', trace.Start r = (None, r') -> trace.Enabled r' = true) ->
  (forall r e r', trace.Enabled r = true -> trace.Stop r = (e, r') ->
                  trace.Enabled r' = false) ->
  (Start s = (None, s') -> Start s' = (Some AlreadyRunning, s'))
  /\ (trace.Enabled (recorder s) = true ->
      forall e, Stop s = (e, s') ->
                Stop s' = (Some NotRunning, s')
                /\ Snapshot s' = (bytes.nil, Some NotRunning, s')).
Proof.
  intros Hstart Hstop. split.
  - intros E. apply Start_enabled.
    destruct (trace.Enabled (recorder s)) eqn:En.
    + rewrite (Start_enabled s En) in E. discriminate E.
    + rewrite (Start_disabled s En) in E.
      destruct (trace.Start (pushed s)) as [e r'] eqn:Es.
      cbn [fst snd] in E. injection E as -> <-. cbn [recorder].
      now apply (Hstart (pushed s)).
  - intros En e E. rewrite (Stop_enabled s En) in E.
    destruct (trace.Stop (recorder s)) as [e' r'] eqn:Es.
    cbn [fst snd] in E. injection E as _ <-.
    assert (Ed : trace.Enabled r' = false) by now apply (Hstop (recorder s) e').
    split; [now apply Stop_disabled|].
    unfold Snapshot. cbn [recorder]. now rewrite Ed.
Qed.

Lemma start_twice_stop_twice_witness :
  Stop (snd (Stop running_service))
  = (Some NotRunning, snd (Stop running_service)).
Proof.
  destruct (start_twice_stop_twice (R := double.Recorder)
              running_service (snd (Stop running_service))) as [_ H].
  - intros r r'. cbn. unfold double.start.
    destruct (double.enabled r); [discriminate|].
    destruct (double.startErr r); [discriminate|]. now intros [= <-].
  - intros r e r' Er. cbn. unfold double.stop. cbn in Er. rewrite Er.
    now intros [= _ <-].
  - apply (H eq_refl None). reflexivity.
Defined.

(* ================================================================= *)
(** * Properties of the HTTP handlers *)

Module http_facts.

Lemma Get_app (a b : http.Header) (k : string) :
  http.Get (a ++ b)%list k =
    match http.Get a k with Some v => Some v | None => http.Get b k end.
Proof.
  induction a as [|[k' v'] a IH]; cbn [http.Get app]; [reflexivity|].
  destruct (String.eqb k' k); [reflexivity | exact IH].
Qed.

Lemma Get_Del_same (h : http.Header) (k : string) :
  http.Get (http.Del h k) k = None.
Proof.
  unfold http.Del. induction h as [|[k' v'] h IH]; cbn [filter fst];
    [reflexivity|].
  destruct (String.eqb k' k) eqn:E; cbn [negb]; [exact IH|].
  cbn [http.Get]. now rewrite E.
Qed.

Lemma Get_Del_other (h : http.Header) (k k' : string) :
  k' <> k -> http.Get (http.Del h k) k' = http.Get h k'.
Proof.
  intros Hk. unfold http.Del.
  induction h as [|[k0 v0] h IH]; cbn [filter fst http.Get]; [reflexivity|].
  destruct (String.eqb_spec k0 k) as [->|Hn]; cbn [negb].
  - destruct (String.eqb_spec k k'); [congruence | exact IH].
  - cbn [http.Get]. now rewrite IH.
Qed.

Lemma Get_Set_same (h : http.Header) (k v : string) :
  http.Get (http.Set_ h k v) k = Some v.
Proof.
  unfold http.Set_. rewrite Get_app, Get_Del_same. cbn [http.Get].
  now rewrite String.eqb_refl.
Qed.

Lemma Get_Set_other (h : http.Header) (k k' v : string) :
  k' <> k -> http.Get (http.Set_ h k v) k' = http.Get h k'.
Proof.
  intros Hk. unfold http.Set_. rewrite Get_app, (Get_Del_other h k k' Hk).
  destruct (http.Get h k'); [reflexivity|]. cbn [http.Get].
  destruct (String.eqb_spec k k'); [congruence | reflexivity].
Qed.

(** What [http.Error] leaves of a writer whose status line was still to
    go. *)
Lemma Error_unsent (w : http.ResponseWriter) (msg : string) (code : Z) :
  unsent w ->
  answered (http.Error w msg code) code "text/plain; charset=utf-8"
  /\ http.body (http.Error w msg code)
     = (http.body w ++ list_byte_of_string msg ++ [Byte.x0a])%list.
Proof.
  unfold unsent, answered. intros Hw. destruct w as [h wh st se bd].
  cbn in Hw. subst wh. unfold http.Error, http.Fprintln, http.Write,
    http.WriteHeader, http.SetHeader, http.DelHeader.
  cbn [http.wroteHeader http.header http.status http.sent http.body].
  repeat split.
  rewrite Get_Set_other by discriminate. apply Get_Set_same.
Qed.

Lemma writeError_unsent (mE : string -> list Byte.byte * option error)
    (w : http.ResponseWriter) (code : Z) (msg : string) :
  unsent w -> error_answer mE w (handlers.writeError mE w code msg) code msg.
Proof.
  unfold unsent, error_answer, answered. intros Hw.
  destruct w as [h wh st se bd]. cbn in Hw. subst wh.
  unfold handlers.writeError, http.Encode, http.Write, http.WriteHeader,
    http.SetHeader.
  cbn [http.wroteHeader http.header http.status http.sent http.body].
  destruct (mE msg) as [b [e|]];
    cbn [http.wroteHeader http.header http.status http.sent http.body];
    rewrite ?app_nil_r; repeat split; apply Get_Set_same.
Qed.

Lemma WriteHeader_unsent (w : http.ResponseWriter) :
  unsent w -> bare_ok w (http.WriteHeader w http.StatusOK).
Proof.
  unfold unsent, bare_ok. intros Hw. unfold http.WriteHeader. rewrite Hw.
  now cbn.
Qed.

End http_facts.

Lemma Snapshot_not_running {R : Type} `{trace.FlightRecorder R} (s : Service R) :
  trace.Enabled (recorder s) = false ->
  Snapshot s = (bytes.nil, Some NotRunning, s).
Proof. intros E. unfold Snapshot. now rewrite E. Qed.

Lemma method_test (m k : string) :
  m <> k -> negb (String.eqb m k) = true.
Proof. intros Hm. now destruct (String.eqb_spec m k). Qed.

(** X5: a request made with another method than the handler's own is
    answered 405 with the plain text [Method not allowed]; the service
    is not called and stays as it is.  The method is compared as it is
    written. *)
Theorem wrong_method_refused {R : Type} `{trace.FlightRecorder R}
    (mS : StatusResponse.t -> list Byte.byte * option error)
    (mE : string -> list Byte.byte * option error)
    (rv : list Byte.byte -> list Byte.byte * option error)
    (jU : list Byte.byte -> UpdateAlias * option error)
    (f g : string -> string) (fr : Z -> nat -> Z -> Z)
    (s : Service R) (w : http.ResponseWriter) (r : http.Request) :
  unsent w ->
  let refused := http.Error w "Method not allowed" 405 in
  answered refused 405 "text/plain; charset=utf-8"
  /\ http.body refused
     = (http.body w ++ list_byte_of_string "Method not allowed" ++ [Byte.x0a])%list
  /\ (http.Method r <> "GET" ->
      handlers.handleStatus mS s w r = (refused, s)
      /\ handlers.handleSnapshot mE s w r = (refused, s))
  /\ (http.Method r <> "POST" ->
      handlers.handleStart mE s w r = (refused, s)
      /\ handlers.handleStop mE s w r = (refused, s)
      /\ handlers.handleUpdate mE rv jU f g fr s w r = (refused, s)).
Proof.
  intros Hw refused.
  destruct (http_facts.Error_unsent w "Method not allowed" 405 Hw) as [A B].
  split; [exact A|]. split; [exact B|].
  split; intros Hm.
  - unfold handlers.handleStatus, handlers.handleSnapshot.
    rewrite (method_test _ http.MethodGet Hm). now split.
  - unfold handlers.handleStart, handlers.handleStop, handlers.handleUpdate.
    rewrite (method_test _ http.MethodPost Hm). now repeat split.
Qed.

Lemma wrong_method_refused_witness :
  let r := {| http.Method := "get"; http.Body := [] |} in
  handlers.handleSnapshot (fun _ => ([], None)) running_service http.fresh r
  = (http.Error http.fresh "Method not allowed" 405, running_service)
  /\ http.status (http.Error http.fresh "Method not allowed" 405) = 405.
Proof.
  intros r.
  destruct (wrong_method_refused (fun _ => ([], None)) (fun _ => ([], None))
              (fun b => (b, None))
              (fun _ => ({| tPeriod := None; tSize := None |}, None))
              no_trim no_trim no_fraction running_service http.fresh r eq_refl)
    as ((_ & Hc & _) & _ & Hget & _).
  split; [apply Hget; discriminate | exact Hc].
Defined.

(** X6: [handleStart] and [handleStop] answer a POST with a bare 200
    when the service's operation returned no error, and with 400 and the
    error's text, as JSON, for every error: the refusal by the guard and
    a failure of the capability alike.  The service is left as the
    operation left it. *)
Theorem start_stop_answers {R : Type} `{trace.FlightRecorder R}
    (mE : string -> list Byte.byte * option error)
    (s : Service R) (w : http.ResponseWriter) (r : http.Request) :
  unsent w -> http.Method r = "POST" ->
  (snd (handlers.handleStart mE s w r) = snd (Start s)
   /\ match fst (Start s) with
      | None => bare_ok w (fst (handlers.handleStart mE s w r))
      | Some e =>
          error_answer mE w (fst (handlers.handleStart mE s w r)) 400 (Error e)
      end)
  /\ (snd (handlers.handleStop mE s w r) = snd (Stop s)
      /\ match fst (Stop s) with
         | None => bare_ok w (fst (handlers.handleStop mE s w r))
         | Some e =>
             error_answer mE w (fst (handlers.handleStop mE s w r)) 400 (Error e)
         end).
Proof.
  intros Hw Hm. unfold handlers.handleStart, handlers.handleStop.
  rewrite Hm. cbn [String.eqb negb http.MethodPost].
  change (String.eqb "POST" "POST") with true. cbn [negb].
  split.
  - destruct (Start s) as [[e|] s1]; cbn [fst snd]; split; try reflexivity.
    + now apply http_facts.writeError_unsent.
    + now apply http_facts.WriteHeader_unsent.
  - destruct (Stop s) as [[e|] s1]; cbn [fst snd]; split; try reflexivity.
    + now apply http_facts.writeError_unsent.
    + now apply http_facts.WriteHeader_unsent.
Qed.

Lemma start_stop_answers_witness :
  let r := {| http.Method := "POST"; http.Body := [] |} in
  http.status (fst (handlers.handleStart (fun _ => ([], None))
                      running_service http.fresh r)) = 400
  /\ http.status (fst (handlers.handleStop (fun _ => ([], None))
                         running_service http.fresh r)) = 200.
Proof.
  intros r.
  destruct (start_stop_answers (fun _ => ([], None)) running_service
              http.fresh r eq_refl eq_refl) as [[_ A] [_ B]].
  split.
  - destruct A as [(_ & A & _) _]. exact A.
  - destruct B as (_ & B & _). exact B.
Defined.

(** X7: [handleSnapshot] answers a GET with 200, the content type
    [application/octet-stream] and exactly the bytes of the snapshot;
    every error of [Snapshot], a stopped recorder and a snapshot in
    progress included, is answered 500 with the error's text as JSON. *)
Theorem snapshot_answers {R : Type} `{trace.FlightRecorder R}
    (mE : string -> list Byte.byte * option error)
    (s : Service R) (w : http.ResponseWriter) (r : http.Request) :
  unsent w -> http.Method r = "GET" ->
  let w' := fst (handlers.handleSnapshot mE s w r) in
  snd (handlers.handleSnapshot mE s w r) = snd (Snapshot s)
  /\ match Snapshot s with
     | (b, None, _) =>
         answered w' 200 "application/octet-stream"
         /\ http.body w' = (http.body w ++ bytes.to_list b)%list
     | (_, Some e, _) => error_answer mE w w' 500 (Error e)
     end
  /\ (trace.Enabled (recorder s) = false ->
      error_answer mE w w' 500 "flight recorder is not running").
Proof.
  intros Hw Hm w'. subst w'. unfold handlers.handleSnapshot.
  rewrite Hm. change (String.eqb "GET" http.MethodGet) with true. cbn [negb].
  generalize (Snapshot_not_running s).
  destruct (Snapshot s) as [[b [e|]] s1]; cbn [fst snd]; intros Hnr.
  - split; [reflexivity|].
    split; [now apply http_facts.writeError_unsent|].
    intros En. specialize (Hnr En). injection Hnr as _ -> _.
    now apply http_facts.writeError_unsent.
  - split; [reflexivity|]. split; [|intros En; discriminate (Hnr En)].
    unfold unsent in Hw. unfold answered, http.Write, http.WriteHeader,
      http.SetHeader.
    cbn [http.wroteHeader http.header http.status http.sent http.body].
    rewrite Hw.
    cbn [http.wroteHeader http.header http.status http.sent http.body].
    repeat split. apply http_facts.Get_Set_same.
Qed.

Lemma snapshot_answers_witness :
  let r := {| http.Method := "GET"; http.Body := [] |} in
  http.body (fst (handlers.handleSnapshot (fun _ => ([], None))
                    running_service http.fresh r))
  = [Byte.x01; Byte.x02; Byte.x03]
  /\ http.status (fst (handlers.handleSnapshot (fun _ => ([], None))
                         busy_service http.fresh r)) = 500.
Proof.
  intros r.
  destruct (snapshot_answers (fun _ => ([], None)) running_service
              http.fresh r eq_refl eq_refl) as (_ & A & _).
  destruct (snapshot_answers (fun _ => ([], None)) busy_service
              http.fresh r eq_refl eq_refl) as (_ & _ & B).
  split.
  - destruct A as [_ A]. exact A.
  - destruct (B eq_refl) as [(_ & B' & _) _]. exact B'.
Defined.

(** X8: [handleUpdate] answers a POST whose body does not decode with
    400 and the fixed text [Invalid JSON payload], whatever the error
    was, and leaves the service alone; in particular the message of
    [UnmarshalJSON] that names a bad period never reaches the caller.  A
    body that decodes is always answered with a bare 200, and the
    service is left as [Update] left it. *)
Theorem update_answers {R : Type} `{trace.FlightRecorder R}
    (mE : string -> list Byte.byte * option error)
    (rv : list Byte.byte -> list Byte.byte * option error)
    (jU : list Byte.byte -> UpdateAlias * option error)
    (f g : string -> string) (fr : Z -> nat -> Z -> Z)
    (s : Service R) (w : http.ResponseWriter) (r : http.Request) :
  unsent w -> http.Method r = "POST" ->
  let out := handlers.handleUpdate mE rv jU f g fr s w r in
  (forall e u,
      handlers.Decode rv jU f g fr (http.Body r) handlers.zeroRequest
      = (Some e, u) ->
      snd out = s /\ error_answer mE w (fst out) 400 "Invalid JSON payload")
  /\ (forall req,
        handlers.Decode rv jU f g fr (http.Body r) handlers.zeroRequest
        = (None, req) ->
        snd out = snd (Update s req) /\ bare_ok w (fst out))
  /\ (forall data t p d e,
        rv (http.Body r) = (data, None) -> jU data = (t, None) ->
        tPeriod t = Some p -> time.ParseDuration fr p = (d, Some e) ->
        fst (handlers.Decode rv jU f g fr (http.Body r) handlers.zeroRequest)
        = Some (InvalidDuration p)
        /\ snd out = s
        /\ error_answer mE w (fst out) 400 "Invalid JSON payload").
Proof.
  intros Hw Hm out.
  assert (Hfail : forall e u,
    handlers.Decode rv jU f g fr (http.Body r) handlers.zeroRequest
    = (Some e, u) ->
    snd out = s /\ error_answer mE w (fst out) 400 "Invalid JSON payload").
  { intros e u E. subst out. unfold handlers.handleUpdate.
    rewrite Hm. change (String.eqb "POST" http.MethodPost) with true.
    cbn [negb]. rewrite E. cbn [fst snd]. split; [reflexivity|].
    now apply http_facts.writeError_unsent. }
  split; [exact Hfail|]. split.
  - intros req E. subst out. unfold handlers.handleUpdate.
    rewrite Hm. change (String.eqb "POST" http.MethodPost) with true.
    cbn [negb]. rewrite E. unfold Update. cbn [fst snd].
    split; [reflexivity|]. now apply http_facts.WriteHeader_unsent.
  - intros data t p d e Erv EjU Ep Ed.
    assert (E : handlers.Decode rv jU f g fr (http.Body r) handlers.zeroRequest
                = (Some (InvalidDuration p),
                   {| UpdateRequest.Period := None;
                      UpdateRequest.Size := None |})).
    { unfold handlers.Decode. rewrite Erv. unfold UnmarshalJSON. rewrite EjU.
      unfold UnmarshalJSON_alias. rewrite Ep, Ed. reflexivity. }
    split; [now rewrite E|]. exact (Hfail _ _ E).
Qed.

Lemma update_answers_witness :
  let r := {| http.Method := "POST"; http.Body := [Byte.x7b; Byte.x7d] |} in
  let out :=
    handlers.handleUpdate (fun _ => ([], None)) (fun b => (b, None))
      (fun _ => ({| tPeriod := Some "2x"; tSize := None |}, None))
      no_trim no_trim no_fraction running_service http.fresh r in
  snd out = running_service /\ http.status (fst out) = 400.
Proof.
  intros r out.
  destruct (update_answers (fun _ => ([], None)) (fun b => (b, None))
              (fun _ => ({| tPeriod := Some "2x"; tSize := None |}, None))
              no_trim no_trim no_fraction running_service http.fresh r
              eq_refl eq_refl) as (_ & _ & H).
  destruct (H [Byte.x7b; Byte.x7d] {| tPeriod := Some "2x"; tSize := None |}
              "2x" 0 (time.UnknownUnit "x") eq_refl eq_refl eq_refl eq_refl)
    as (_ & A & (_ & B & _) & _).
  split; [exact A | exact B].
Defined.

(** X9: [handleStatus] never changes the service; it answers a GET with
    the bytes [json.Marshal] makes of [Status], a newline after them,
    under the JSON content type and the status 200. *)
Theorem status_answers {R : Type} `{trace.FlightRecorder R}
    (mS : StatusResponse.t -> list Byte.byte * option error)
    (s : Service R) (w : http.ResponseWriter) (r : http.Request) :
  snd (handlers.handleStatus mS s w r) = s
  /\ (unsent w -> http.Method r = "GET" ->
      forall b, mS (Status s) = (b, None) ->
      answered (fst (handlers.handleStatus mS s w r)) 200 "application/json"
      /\ http.body (fst (handlers.handleStatus mS s w r))
         = (http.body w ++ b ++ [Byte.x0a])%list).
Proof.
  split.
  - unfold handlers.handleStatus. now destruct (negb _).
  - intros Hw Hm b Eb. unfold handlers.handleStatus.
    rewrite Hm. change (String.eqb "GET" http.MethodGet) with true.
    cbn [negb fst]. rewrite Eb. unfold unsent in Hw.
    unfold answered, http.Encode, http.Write, http.WriteHeader, http.SetHeader.
    cbn [http.wroteHeader http.header http.status http.sent http.body].
    rewrite Hw.
    cbn [http.wroteHeader http.header http.status http.sent http.body].
    repeat split. apply http_facts.Get_Set_same.
Qed.

Lemma status_answers_witness :
  let r := {| http.Method := "GET"; http.Body := [] |} in
  http.status (fst (handlers.handleStatus (fun _ => ([Byte.x7b; Byte.x7d], None))
                      running_service http.fresh r)) = 200.
Proof.
  intros r.
  destruct (status_answers (fun _ => ([Byte.x7b; Byte.x7d], None))
              running_service http.fresh r) as [_ H].
  destruct (H eq_refl eq_refl [Byte.x7b; Byte.x7d] eq_refl) as [(_ & A & _) _].
  exact A.
Defined.

(* ================================================================= *)
(** * Further properties of the codec *)

Module wrap_facts.

Lemma wrap_in_range (z : Z) : in_range (wrap z).
Proof.
  unfold in_range, minInt, maxInt, wrap.
  pose proof (Z.mod_pos_bound (z + 2 ^ 63) (2 ^ 64) ltac:(lia)). lia.
Qed.

Lemma wrap_eq_iff (z : Z) : wrap z = z <-> in_range z.
Proof.
  split; [intros <-; apply wrap_in_range | apply int_facts.wrap_id].
Qed.

Lemma wrap_rep (z : Z) : exists k, wrap z = z + k * 2 ^ 64.
Proof.
  exists (- ((z + 2 ^ 63) / 2 ^ 64)). unfold wrap.
  pose proof (Z.div_mod (z + 2 ^ 63) (2 ^ 64) ltac:(lia)). lia.
Qed.

Lemma wrap_shift (z k : Z) : wrap (z + k * 2 ^ 64) = wrap z.
Proof.
  unfold wrap. replace (z + k * 2 ^ 64 + 2 ^ 63) with (z + 2 ^ 63 + k * 2 ^ 64)
    by lia. now rewrite Z.mod_add by lia.
Qed.

Lemma wrap_mul_l (a b : Z) : wrap (wrap a * b) = wrap (a * b).
Proof.
  destruct (wrap_rep a) as [k ->].
  replace ((a + k * 2 ^ 64) * b) with (a * b + (k * b) * 2 ^ 64) by lia.
  apply wrap_shift.
Qed.

End wrap_facts.

Lemma in_range_dec (z : Z) : {in_range z} + {~ in_range z}.
Proof.
  unfold in_range. destruct (Z_le_dec minInt z), (Z_le_dec z maxInt);
    [left | right | right | right]; lia.
Qed.

(** X10: the size decoder accepts an input exactly when, trimmed and
    without its unit, it is an integer literal that fits [int] (a
    magnitude too large for [int] is refused like a malformed one); the
    result is then the [int] product of the magnitude and the unit. *)
Theorem size_accepted_iff (f g : string -> string) (s : string) :
  (snd (parseUnitsBytes f g s) = None <->
   is_integer (magnitude (TrimSpace f g s)) = true
   /\ in_range (value (magnitude (TrimSpace f g s))))
  /\ (snd (parseUnitsBytes f g s) = None ->
      fst (parseUnitsBytes f g s)
      = wrap (value (magnitude (TrimSpace f g s))
              * multiplier (TrimSpace f g s))).
Proof.
  destruct (is_integer (magnitude (TrimSpace f g s))) eqn:Hi.
  - destruct (in_range_dec (value (magnitude (TrimSpace f g s)))) as [Hv|Hv].
    + rewrite (decoder_facts.parse_accepts f g s Hi Hv). cbn [fst snd].
      split; [split; [intros _; split; [reflexivity | exact Hv] | reflexivity]
             | reflexivity].
    + pose proof (decoder_facts.parse_out_of_range f g s Hi Hv) as E.
      rewrite E. split; [split; [discriminate | tauto] | discriminate].
  - pose proof (decoder_facts.parse_rejects f g s Hi) as E.
    split; [split; [tauto | intros [? _]; discriminate] | tauto].
Qed.

(** X11: the size a status prints, read back by the size decoder, is
    the size rounded down to a multiple of the unit it was printed in;
    it is the size itself up to 1024 bytes, a negative size included. *)
Theorem size_round_trip (f g : string -> string) (D : time.Duration -> string)
    (st : StatusResponse.t) :
  in_range (StatusResponse.Size st) ->
  let n := StatusResponse.Size st in
  parseUnitsBytes f g (aSize (MarshalJSON_alias D st))
  = (n - n mod unit_of n, None)
  /\ (n <= 1024 -> parseUnitsBytes f g (aSize (MarshalJSON_alias D st)) = (n, None)).
Proof.
  intros Hr n. unfold MarshalJSON_alias. cbn [aSize]. fold n.
  assert (Henc : (if negb (n =? 0) then formatMemoryUnits n else "0B")
                 = formatMemoryUnits n).
  { destruct (Z.eqb_spec n 0) as [->|]; reflexivity. }
  rewrite Henc. clear Henc.
  pose proof Hr as Hr'. unfold in_range, minInt, maxInt in Hr'. fold n in Hr, Hr'.
  assert (Hmain : parseUnitsBytes f g (formatMemoryUnits n)
                  = (n - n mod unit_of n, None)).
  { unfold formatMemoryUnits, unit_of, fmt.Sprintf_d.
    change (1024 * 1024) with 1048576.
    destruct (Z.ltb_spec 1048576 n).
    - rewrite int_facts.quo_div by (unfold maxInt; lia).
      pose proof (Z.div_mod n 1048576 ltac:(lia)).
      pose proof (Z.mod_pos_bound n 1048576 ltac:(lia)).
      assert (Hq : in_range (n / 1048576))
        by (unfold in_range, minInt, maxInt; lia).
      destruct (fmt_facts.fmtInteger_spec _ Hq) as [Hi Hval].
      rewrite (decoder_facts.parse_literal f g _ Hi "MB" (1024 * 1024)
                 (decoder_facts.split_MB f g _ Hi)) by now rewrite Hval.
      rewrite Hval, int_facts.wrap_id
        by (unfold in_range, minInt, maxInt; lia).
      f_equal. lia.
    - destruct (Z.ltb_spec 1024 n).
      + rewrite int_facts.quo_div by (unfold maxInt; lia).
        pose proof (Z.div_mod n 1024 ltac:(lia)).
        pose proof (Z.mod_pos_bound n 1024 ltac:(lia)).
        assert (Hq : in_range (n / 1024))
          by (unfold in_range, minInt, maxInt; lia).
        destruct (fmt_facts.fmtInteger_spec _ Hq) as [Hi Hval].
        rewrite (decoder_facts.parse_literal f g _ Hi "KB" 1024
                   (decoder_facts.split_KB f g _ Hi)) by now rewrite Hval.
        rewrite Hval, int_facts.wrap_id
          by (unfold in_range, minInt, maxInt; lia).
        f_equal. lia.
      + destruct (fmt_facts.fmtInteger_spec _ Hr) as [Hi Hval].
        rewrite (decoder_facts.parse_literal f g _ Hi "B" 1
                   (decoder_facts.split_B f g _ Hi)) by now rewrite Hval.
        rewrite Hval, Z.mul_1_r, int_facts.wrap_id, Z.mod_1_r by exact Hr.
        f_equal. lia. }
  split; [exact Hmain|].
  intros Hn. rewrite Hmain. unfold unit_of.
  change (1024 * 1024) with 1048576.
  destruct (Z.ltb_spec 1048576 n); [lia|].
  destruct (Z.ltb_spec 1024 n); [lia|].
  rewrite Z.mod_1_r. f_equal. lia.
Qed.

Lemma size_round_trip_witness :
  parseUnitsBytes no_trim no_trim
    (aSize (MarshalJSON_alias (fun _ => "")
              {| StatusResponse.Enabled := true;
                 StatusResponse.Period := 0;
                 StatusResponse.Size := 1048577 |}))
  = (1048576, None).
Proof.
  assert (Hr : in_range 1048577)
    by (unfold in_range, minInt, maxInt; simpl; lia).
  destruct (size_round_trip no_trim no_trim (fun _ => "")
              {| StatusResponse.Enabled := true;
                 StatusResponse.Period := 0;
                 StatusResponse.Size := 1048577 |} Hr) as [E _].
  exact E.
Defined.

(** X12: the size decoder never reports an overflow of the product: a
    literal that fits [int] followed by [KB] or [MB] is always accepted,
    and the result is the true product exactly when that product fits
    [int]; otherwise it is another number. *)
Theorem size_overflow_silent (f g : string -> string) (lit : string) :
  is_integer lit = true -> in_range (value lit) ->
  (exists r, parseUnitsBytes f g (lit ++ "MB") = (r, None)
             /\ (r = value lit * 1048576 <-> in_range (value lit * 1048576)))
  /\ (exists r, parseUnitsBytes f g (lit ++ "KB") = (r, None)
                /\ (r = value lit * 1024 <-> in_range (value lit * 1024))).
Proof.
  intros Hi Hv. split.
  - exists (wrap (value lit * 1048576)). split; [|apply wrap_facts.wrap_eq_iff].
    apply (decoder_facts.parse_literal f g lit Hi "MB" (1024 * 1024)
             (decoder_facts.split_MB f g lit Hi) Hv).
  - exists (wrap (value lit * 1024)). split; [|apply wrap_facts.wrap_eq_iff].
    apply (decoder_facts.parse_literal f g lit Hi "KB" 1024
             (decoder_facts.split_KB f g lit Hi) Hv).
Qed.

Lemma size_overflow_silent_witness :
  exists r,
    parseUnitsBytes no_trim no_trim ("8796093022208" ++ "MB") = (r, None)
    /\ r <> value "8796093022208" * 1048576.
Proof.
  destruct (size_overflow_silent no_trim no_trim "8796093022208" eq_refl)
    as [(r & E & I) _].
  { unfold in_range, minInt, maxInt. simpl. lia. }
  exists r. split; [exact E|].
  intros Er. apply I in Er. destruct Er as [_ Er]. apply Er. reflexivity.
Defined.

Module unit_facts.
Import strings_facts literal_facts suffix_facts.

Lemma digits_split_unique (a : string) : forall b cx x cy y,
  all_digits a = true -> all_digits b = true ->
  isDigit cx = false -> isDigit cy = false ->
  a ++ String cx x = b ++ String cy y ->
  a = b /\ String cx x = String cy y.
Proof.
  induction a as [|c a IH]; intros [|c' b] cx x cy y Ha Hb Hx Hy E;
    cbn [append all_digits] in *.
  - now split.
  - injection E as -> _. apply andb_true_iff in Hb as [Hb _]. congruence.
  - injection E as <- _. apply andb_true_iff in Ha as [Ha _]. congruence.
  - injection E as <- E. apply andb_true_iff in Ha as [_ Ha].
    apply andb_true_iff in Hb as [_ Hb].
    destruct (IH b cx x cy y Ha Hb Hx Hy E) as [-> E']. now split.
Qed.

(** A text is an integer literal followed by something that does not
    start with a digit in one way only. *)
Lemma integer_split_unique (a b : string) (cx : ascii) (x : string)
    (cy : ascii) (y : string) :
  is_integer a = true -> is_integer b = true ->
  isDigit cx = false -> isDigit cy = false ->
  a ++ String cx x = b ++ String cy y ->
  a = b /\ String cx x = String cy y.
Proof.
  destruct a as [|c a]; [discriminate|]. destruct b as [|c' b]; [discriminate|].
  intros Ha Hb Hx Hy E. cbn [append] in E. injection E as <- E.
  unfold is_integer in Ha, Hb. destruct (isSign c).
  - apply andb_true_iff in Ha as [_ Ha]. apply andb_true_iff in Hb as [_ Hb].
    destruct (digits_split_unique a b cx x cy y Ha Hb Hx Hy E) as [-> E'].
    now split.
  - cbn [all_digits] in Ha, Hb.
    apply andb_true_iff in Ha as [_ Ha]. apply andb_true_iff in Hb as [_ Hb].
    destruct (digits_split_unique a b cx x cy y Ha Hb Hx Hy E) as [-> E'].
    now split.
Qed.

Lemma integer_app_other (lit : string) (cx : ascii) (x : string) :
  is_integer lit = true -> isDigit cx = false ->
  is_integer (lit ++ String cx x) = false.
Proof.
  destruct lit as [|c rest]; [discriminate|]. intros Hi Hx.
  unfold is_integer in *. cbn [append].
  destruct (isSign c).
  - rewrite all_digits_app. cbn [all_digits]. rewrite Hx.
    now rewrite andb_false_r, andb_false_r.
  - change (String c (rest ++ String cx x)) with (String c rest ++ String cx x).
    rewrite all_digits_app. cbn [all_digits]. rewrite Hx.
    now rewrite andb_false_r.
Qed.

End unit_facts.

(** X13: after an integer literal that fits [int], of all that may
    follow and does not start with a digit, the size decoder accepts
    [B], [KB] and [MB] and nothing else: no lower case, no other unit, no
    blank between the number and the unit. *)
Theorem only_three_units (f g : string -> string) (lit : string)
    (x : ascii) (u' : string) (y : ascii) :
  is_integer lit = true -> in_range (value lit) ->
  isDigit x = false -> lastc (String x u') = Some y -> plain y = true ->
  (snd (parseUnitsBytes f g (lit ++ String x u')) = None <->
   String x u' = "B" \/ String x u' = "KB" \/ String x u' = "MB").
Proof.
  intros Hi Hv Hx Hl Hy. set (u := String x u') in *.
  assert (Ht : TrimSpace f g (lit ++ u) = lit ++ u).
  { apply (suffix_facts.TrimSpace_lit lit Hi f g u y); [|exact Hy].
    rewrite strings_facts.lastc_app by discriminate. exact Hl. }
  split.
  - intros Hok.
    assert (Hm : is_integer (magnitude (TrimSpace f g (lit ++ u))) = true).
    { destruct (is_integer (magnitude (TrimSpace f g (lit ++ u)))) eqn:E;
        [reflexivity|].
      now elim (decoder_facts.parse_rejects f g _ E). }
    rewrite Ht in Hm. unfold magnitude in Hm.
    destruct (HasSuffix (lit ++ u) "MB") eqn:E1.
    { apply strings_facts.HasSuffix_inv in E1.
      destruct (unit_facts.integer_split_unique _ _ x u' "M" "B" Hi Hm Hx
                  eq_refl E1) as [_ E]. now right; right. }
    destruct (HasSuffix (lit ++ u) "KB") eqn:E2.
    { apply strings_facts.HasSuffix_inv in E2.
      destruct (unit_facts.integer_split_unique _ _ x u' "K" "B" Hi Hm Hx
                  eq_refl E2) as [_ E]. now right; left. }
    destruct (HasSuffix (lit ++ u) "B") eqn:E3.
    { apply strings_facts.HasSuffix_inv in E3.
      destruct (unit_facts.integer_split_unique _ _ x u' "B" "" Hi Hm Hx
                  eq_refl E3) as [_ E]. now left. }
    subst u. rewrite (unit_facts.integer_app_other lit x u' Hi Hx) in Hm.
    discriminate Hm.
  - intros [E | [E | E]]; rewrite E.
    + now rewrite (decoder_facts.parse_literal f g lit Hi "B" 1
                     (decoder_facts.split_B f g lit Hi) Hv).
    + now rewrite (decoder_facts.parse_literal f g lit Hi "KB" 1024
                     (decoder_facts.split_KB f g lit Hi) Hv).
    + now rewrite (decoder_facts.parse_literal f g lit Hi "MB" (1024 * 1024)
                     (decoder_facts.split_MB f g lit Hi) Hv).
Qed.

Lemma only_three_units_witness :
  snd (parseUnitsBytes no_trim no_trim ("128" ++ "GB")) <> None
  /\ snd (parseUnitsBytes no_trim no_trim ("128" ++ "mb")) <> None
  /\ snd (parseUnitsBytes no_trim no_trim ("128" ++ " MB")) <> None.
Proof.
  assert (Hv : in_range (value "128"))
    by (unfold in_range, minInt, maxInt; simpl; lia).
  pose proof (only_three_units no_trim no_trim "128" "G" "B" "B"
                eq_refl Hv eq_refl eq_refl eq_refl) as H1.
  pose proof (only_three_units no_trim no_trim "128" "m" "b" "b"
                eq_refl Hv eq_refl eq_refl eq_refl) as H2.
  pose proof (only_three_units no_trim no_trim "128" " " "MB" "B"
                eq_refl Hv eq_refl eq_refl eq_refl) as H3.
  split; [|split]; intros E.
  - apply H1 in E. destruct E as [E|[E|E]]; discriminate E.
  - apply H2 in E. destruct E as [E|[E|E]]; discriminate E.
  - apply H3 in E. destruct E as [E|[E|E]]; discriminate E.
Defined.

Module space_facts.
Import strings_facts.

Lemma all_space_list (s : string) :
  all_space s = forallb spaceb (list_ascii_of_string s).
Proof.
  induction s as [|c s IH]; cbn [all_space list_ascii_of_string forallb];
    [reflexivity|].
  now rewrite IH.
Qed.

Lemma list_ascii_app (a b : string) :
  list_ascii_of_string (a ++ b)
  = (list_ascii_of_string a ++ list_ascii_of_string b)%list.
Proof. induction a as [|c a IH]; cbn; [reflexivity | now rewrite IH]. Qed.

Lemma forallb_rev (l : list ascii) :
  forallb spaceb (rev l) = forallb spaceb l.
Proof.
  induction l as [|c l IH]; cbn [rev forallb]; [reflexivity|].
  rewrite forallb_app, IH. cbn [forallb]. rewrite andb_true_r.
  apply andb_comm.
Qed.

Lemma spaceb_step (c : ascii) :
  spaceb c = true ->
  (RuneSelf <=? byte_of c) = false /\ asciiSpace (byte_of c) = true.
Proof.
  unfold spaceb. intros E. apply andb_true_iff in E as [E1 E2].
  apply Z.ltb_lt in E1. split; [apply Z.leb_gt; exact E1 | exact E2].
Qed.

Lemma scan_start_spaces (ws rest : string) : forall k,
  all_space ws = true ->
  scan_start (ws ++ rest) k = scan_start rest (k + String.length ws)%nat.
Proof.
  induction ws as [|c ws IH]; intros k Hs; cbn [append String.length].
  - now rewrite Nat.add_0_r.
  - cbn [all_space] in Hs. apply andb_true_iff in Hs as [Hc Hs].
    destruct (spaceb_step c Hc) as [E1 E2].
    cbn [scan_start]. rewrite E1, E2, (IH (S k) Hs). f_equal. lia.
Qed.

Lemma scan_stop_spaces (l rest : list ascii) : forall n,
  forallb spaceb l = true ->
  scan_stop (l ++ rest) n = scan_stop rest (n + List.length l)%nat.
Proof.
  induction l as [|c l IH]; intros n Hs; cbn [app List.length].
  - now rewrite Nat.add_0_r.
  - cbn [forallb] in Hs. apply andb_true_iff in Hs as [Hc Hs].
    destruct (spaceb_step c Hc) as [E1 E2].
    cbn [scan_stop]. rewrite E1, E2, (IH (S n) Hs). f_equal. lia.
Qed.

Lemma length_list_ascii (s : string) :
  List.length (list_ascii_of_string s) = String.length s.
Proof. induction s; cbn; congruence. Qed.

Lemma plain_step (c : ascii) :
  plain c = true ->
  (RuneSelf <=? byte_of c) = false /\ asciiSpace (byte_of c) = false.
Proof.
  unfold plain. intros E. apply andb_true_iff in E as [E1 E2].
  apply Z.ltb_lt in E1. apply negb_true_iff in E2.
  split; [apply Z.leb_gt; exact E1 | exact E2].
Qed.

(** [TrimSpace] takes the ASCII white space off both ends of a text
    that starts and ends with an ASCII byte that is no space. *)
Lemma TrimSpace_spaces (f g : string -> string) (ws1 ws2 : string)
    (c : ascii) (t : string) (d : ascii) :
  all_space ws1 = true -> all_space ws2 = true ->
  plain c = true -> lastc (String c t) = Some d -> plain d = true ->
  TrimSpace f g (ws1 ++ String c t ++ ws2) = String c t.
Proof.
  intros H1 H2 Hc Hl Hd. unfold TrimSpace.
  rewrite (scan_start_spaces ws1 _ 0 H1). cbn [scan_start append].
  destruct (plain_step c Hc) as [-> ->]. cbn [Nat.add].
  change (String c (t ++ ws2)) with (String c t ++ ws2).
  rewrite from_app, list_ascii_app, rev_app_distr.
  rewrite (scan_stop_spaces _ _ 0)
    by (rewrite forallb_rev, <- all_space_list; exact H2).
  destruct (lastc_rev _ _ Hl) as [l ->]. cbn [scan_stop].
  destruct (plain_step d Hd) as [-> ->].
  rewrite length_rev, length_list_ascii, length_app. cbn [Nat.add].
  replace (String.length (String c t) + String.length ws2
           - String.length ws2)%nat with (String.length (String c t)) by lia.
  apply upto_app.
Qed.

Lemma TrimSpace_blank (f g : string -> string) (ws : string) :
  all_space ws = true -> TrimSpace f g ws = "".
Proof.
  intros Hs. unfold TrimSpace.
  pose proof (scan_start_spaces ws "" 0 Hs) as E. rewrite app_empty_r in E.
  rewrite E. cbn [scan_start Nat.add].
  pose proof (from_app ws "") as F. rewrite app_empty_r in F.
  rewrite F. reflexivity.
Qed.

End space_facts.

(** X14: the size decoder ignores ASCII white space around its input
    and refuses an input of nothing but white space. *)
Theorem size_spaces_ignored (f g : string -> string) (ws1 ws2 : string)
    (c : ascii) (t : string) (d : ascii) :
  all_space ws1 = true -> all_space ws2 = true ->
  plain c = true -> lastc (String c t) = Some d -> plain d = true ->
  parseUnitsBytes f g (ws1 ++ String c t ++ ws2)
  = parseUnitsBytes f g (String c t)
  /\ snd (parseUnitsBytes f g ws1) <> None.
Proof.
  intros H1 H2 Hc Hl Hd. split.
  - unfold parseUnitsBytes.
    rewrite (space_facts.TrimSpace_spaces f g ws1 ws2 c t d H1 H2 Hc Hl Hd).
    now rewrite (strings_facts.TrimSpace_plain f g c t d Hc Hl Hd).
  - apply decoder_facts.parse_rejects.
    now rewrite (space_facts.TrimSpace_blank f g ws1 H1).
Qed.

Lemma size_spaces_ignored_witness :
  parseUnitsBytes no_trim no_trim (" " ++ "64MB" ++ String (ascii_of_nat 10) "")
  = (67108864, None).
Proof.
  destruct (size_spaces_ignored no_trim no_trim " "
              (String (ascii_of_nat 10) "") "6" "4MB" "B"
              eq_refl eq_refl eq_refl eq_refl eq_refl) as [E _].
  rewrite E. reflexivity.
Defined.

(** X15: [UnmarshalJSON] always clears the receiver's period before it
    decodes, and never its size: a request without size leaves the size
    the receiver held, and so does every failed decoding; when the
    period is good and the size is not, the error is returned with the
    new period already written. *)
Theorem UnmarshalJSON_receiver (f g : string -> string)
    (fr : Z -> nat -> Z -> Z) (u : UpdateRequest.t) (t : UpdateAlias) :
  let out := UnmarshalJSON_alias f g fr u t in
  (tPeriod t = None -> UpdateRequest.Period (snd out) = None)
  /\ (tSize t = None -> UpdateRequest.Size (snd out) = UpdateRequest.Size u)
  /\ (fst out <> None -> UpdateRequest.Size (snd out) = UpdateRequest.Size u)
  /\ (forall p d sz,
        tPeriod t = Some p -> time.ParseDuration fr p = (d, None) ->
        tSize t = Some sz -> snd (parseUnitsBytes f g sz) <> None ->
        out = (Some (InvalidSize sz),
               {| UpdateRequest.Period := Some d;
                  UpdateRequest.Size := UpdateRequest.Size u |})).
Proof.
  intros out. subst out. unfold UnmarshalJSON_alias.
  destruct t as [tp ts]. cbn [tPeriod tSize].
  repeat split.
  - intros ->. destruct ts as [sz|]; [|reflexivity].
    now destruct (parseUnitsBytes f g sz) as [v [e|]].
  - intros ->. destruct tp as [p|]; [|reflexivity].
    now destruct (time.ParseDuration fr p) as [d [e|]].
  - destruct tp as [p|].
    + destruct (time.ParseDuration fr p) as [d [e|]]; [reflexivity|].
      destruct ts as [sz|]; [|now intros E].
      destruct (parseUnitsBytes f g sz) as [v [e|]]; [reflexivity | now intros E].
    + destruct ts as [sz|]; [|now intros E].
      destruct (parseUnitsBytes f g sz) as [v [e|]]; [reflexivity | now intros E].
  - intros p d sz [= ->] Ep [= ->] Es. rewrite Ep.
    destruct (parseUnitsBytes f g sz) as [v [e|]]; [reflexivity | now elim Es].
Qed.

Lemma UnmarshalJSON_receiver_witness :
  UnmarshalJSON_alias no_trim no_trim no_fraction
    {| UpdateRequest.Period := Some 5; UpdateRequest.Size := Some 7 |}
    {| tPeriod := Some "2s"; tSize := Some "lots" |}
  = (Some (InvalidSize "lots"),
     {| UpdateRequest.Period := Some 2000000000;
        UpdateRequest.Size := Some 7 |}).
Proof.
  destruct (UnmarshalJSON_receiver no_trim no_trim no_fraction
              {| UpdateRequest.Period := Some 5; UpdateRequest.Size := Some 7 |}
              {| tPeriod := Some "2s"; tSize := Some "lots" |})
    as (_ & _ & _ & H).
  apply (H "2s" 2000000000 "lots"); try reflexivity. discriminate.
Defined.

(* ================================================================= *)
(** * Properties of the command line client *)

Module cli_facts.

Lemma Atoi_good (s : string) :
  is_integer s = true /\ in_range (value s) -> Atoi s = (value s, None).
Proof. intros [Hi Hv]. now apply atoi_spec.Atoi_integer. Qed.

Lemma Atoi_bad (s : string) :
  ~ (is_integer s = true /\ in_range (value s)) -> snd (Atoi s) <> None.
Proof.
  intros Hn. destruct (is_integer s) eqn:Hi.
  - rewrite (atoi_spec.Atoi_range s Hi); [discriminate | tauto].
  - now apply atoi_reject.Atoi_other.
Qed.

Lemma megabytes (v : Z) :
  GoInt.mul (GoInt.mul v 1024) 1024 = wrap (v * 1048576).
Proof.
  unfold GoInt.mul. rewrite wrap_facts.wrap_mul_l. f_equal. lia.
Qed.

Lemma seconds (v : Z) :
  GoInt.mul (wrap v) time.Second = wrap (v * 1000000000).
Proof. unfold GoInt.mul. now rewrite wrap_facts.wrap_mul_l. Qed.

Lemma Errorf_s_end (a b : string) :
  fmt.Errorf_s a b "" = errorString (a ++ b).
Proof. unfold fmt.Errorf_s. now rewrite strings_facts.app_empty_r. Qed.

End cli_facts.

(** X17: the client builds its request from the two lines, trimmed: a
    blank line leaves the field out, an integer literal that fits [int]
    is taken as seconds, or as megabytes, and converted by an [int]
    product, and anything else, a duration or a size with a unit
    included, makes the client return an error before it sends
    anything, the error on the period first. *)
Theorem cli_request (f g : string -> string) (periodLine sizeLine : string) :
  let p := TrimSpace f g periodLine in
  let z := TrimSpace f g sizeLine in
  let out := cli.UpdateFlightRecorder_request f g periodLine sizeLine in
  (field_ok p -> field_ok z ->
   out = (None,
          {| UpdateRequest.Period :=
               if String.eqb p "" then None
               else Some (wrap (value p * 1000000000));
             UpdateRequest.Size :=
               if String.eqb z "" then None
               else Some (wrap (value z * 1048576)) |}))
  /\ (~ field_ok p ->
      out = (Some (errorString ("invalid period: " ++ p)),
             {| UpdateRequest.Period := None; UpdateRequest.Size := None |}))
  /\ (field_ok p -> ~ field_ok z ->
      fst out = Some (errorString ("invalid size: " ++ z))).
Proof.
  intros p z out. subst out. unfold cli.UpdateFlightRecorder_request.
  fold p z. unfold field_ok.
  pose proof cli_facts.megabytes as Hmul.
  pose proof cli_facts.seconds as Hsec.
  pose proof cli_facts.Errorf_s_end as Hmsg.
  split; [|split].
  - intros Hp Hz.
    destruct (String.eqb_spec p "") as [Ep|Ep]; cbn [negb].
    + destruct (String.eqb_spec z "") as [Ez|Ez]; cbn [negb]; [reflexivity|].
      destruct Hz as [Hz|Hz]; [contradiction|].
      rewrite (cli_facts.Atoi_good z Hz), Hmul. reflexivity.
    + destruct Hp as [Hp|Hp]; [contradiction|].
      rewrite (cli_facts.Atoi_good p Hp), Hsec.
      destruct (String.eqb_spec z "") as [Ez|Ez]; cbn [negb]; [reflexivity|].
      destruct Hz as [Hz|Hz]; [contradiction|].
      rewrite (cli_facts.Atoi_good z Hz), Hmul. reflexivity.
  - intros Hp.
    destruct (String.eqb_spec p "") as [Ep|Ep]; [tauto|]. cbn [negb].
    assert (Hb : snd (Atoi p) <> None) by (apply cli_facts.Atoi_bad; tauto).
    destruct (Atoi p) as [v [e|]]; [|now elim Hb]. now rewrite Hmsg.
  - intros Hp Hz.
    assert (Hb : snd (Atoi z) <> None) by (apply cli_facts.Atoi_bad; tauto).
    destruct (String.eqb_spec z "") as [Ez|Ez]; [tauto|].
    destruct (String.eqb_spec p "") as [Ep|Ep]; cbn [negb].
    + destruct (Atoi z) as [v [e|]]; [|now elim Hb]. cbn [fst]. now rewrite Hmsg.
    + destruct Hp as [Hp|Hp]; [contradiction|].
      rewrite (cli_facts.Atoi_good p Hp).
      destruct (Atoi z) as [v [e|]]; [|now elim Hb]. cbn [fst]. now rewrite Hmsg.
Qed.

Lemma cli_request_witness :
  cli.UpdateFlightRecorder_request no_trim no_trim "2" "128"
  = (None, {| UpdateRequest.Period := Some 2000000000;
              UpdateRequest.Size := Some 134217728 |})
  /\ fst (cli.UpdateFlightRecorder_request no_trim no_trim "2" "128MB")
     = Some (errorString "invalid size: 128MB").
Proof.
  assert (H2 : field_ok "2").
  { right. split; [reflexivity|].
    unfold in_range, minInt, maxInt. simpl. lia. }
  assert (H128 : field_ok "128").
  { right. split; [reflexivity|].
    unfold in_range, minInt, maxInt. simpl. lia. }
  destruct (cli_request no_trim no_trim "2" "128") as (A & _).
  destruct (cli_request no_trim no_trim "2" "128MB") as (_ & _ & B).
  split.
  - rewrite (A H2 H128). reflexivity.
  - apply (B H2). intros [E|[E _]]; discriminate E.
Defined.

(** X18: a number of megabytes typed at the client becomes the byte
    count the size decoder gives for the same number followed by [MB],
    overflow included; the same number typed with [MB] after it is
    refused by the client. *)
Theorem cli_megabytes (f g : string -> string) (lit : string) :
  is_integer lit = true -> in_range (value lit) ->
  let nl := String (ascii_of_nat 10) "" in
  cli.UpdateFlightRecorder_request f g nl (lit ++ nl)
  = (None, {| UpdateRequest.Period := None;
              UpdateRequest.Size :=
                Some (fst (parseUnitsBytes f g (lit ++ "MB"))) |})
  /\ snd (parseUnitsBytes f g (lit ++ "MB")) = None
  /\ fst (cli.UpdateFlightRecorder_request f g nl (lit ++ "MB" ++ nl))
     = Some (errorString ("invalid size: " ++ lit ++ "MB")).
Proof.
  intros Hi Hv nl.
  destruct (literal_facts.is_integer_lastc lit Hi) as (d & Hd & Hd').
  destruct lit as [|c rest] eqn:El; [discriminate|].
  pose proof (literal_facts.is_integer_first c rest Hi) as Hc.
  assert (Tp : TrimSpace f g nl = "")
    by now apply space_facts.TrimSpace_blank.
  assert (Tz : TrimSpace f g (String c rest ++ nl) = String c rest).
  { apply (space_facts.TrimSpace_spaces f g "" nl c rest d);
      try reflexivity; try assumption.
    now apply literal_facts.isDigit_plain. }
  assert (Tm : TrimSpace f g (String c rest ++ "MB" ++ nl)
               = String c rest ++ "MB").
  { rewrite <- (strings_facts.app_assoc (String c rest) "MB" nl).
    apply (space_facts.TrimSpace_spaces f g "" nl c (rest ++ "MB") "B");
      try reflexivity; try assumption.
    change (String c (rest ++ "MB")) with (String c rest ++ "MB").
    now rewrite strings_facts.lastc_app. }
  pose proof (decoder_facts.parse_literal f g (String c rest) Hi "MB"
                (1024 * 1024) (decoder_facts.split_MB f g _ Hi) Hv) as Pm.
  split; [|split].
  - unfold cli.UpdateFlightRecorder_request. rewrite Tp, Tz.
    cbn [String.eqb negb].
    rewrite (cli_facts.Atoi_good _ (conj Hi Hv)), cli_facts.megabytes, Pm.
    reflexivity.
  - now rewrite Pm.
  - unfold cli.UpdateFlightRecorder_request. rewrite Tp, Tm.
    cbn [String.eqb negb append].
    assert (Hb : snd (Atoi (String c rest ++ "MB")) <> None).
    { apply atoi_reject.Atoi_other.
      apply (unit_facts.integer_app_other _ "M" "B" Hi eq_refl). }
    cbn [append] in Hb.
    destruct (Atoi (String c (rest ++ "MB"))) as [v [e|]]; [|now elim Hb].
    cbn [fst]. now rewrite cli_facts.Errorf_s_end.
Qed.

Lemma cli_megabytes_witness :
  cli.UpdateFlightRecorder_request no_trim no_trim
    (String (ascii_of_nat 10) "") ("128" ++ String (ascii_of_nat 10) "")
  = (None, {| UpdateRequest.Period := None;
              UpdateRequest.Size := Some 134217728 |}).
Proof.
  destruct (cli_megabytes no_trim no_trim "128" eq_refl) as (A & _).
  { unfold in_range, minInt, maxInt. simpl. lia. }
  rewrite A. reflexivity.
Defined.

(** X16: a whole number of megabytes from 2 up, or of kilobytes from 2
    up to 1024, is printed back with the number and the unit it was
    given in; 1MB and 1KB are not: they are printed as [1024KB] and
    [1024B]. *)
Theorem size_unit_kept (v : Z) :
  2 <= v ->
  (v * 1048576 <= maxInt ->
   formatMemoryUnits (v * 1048576) = fmt.fmtInteger v ++ "MB")
  /\ (v <= 1024 -> formatMemoryUnits (v * 1024) = fmt.fmtInteger v ++ "KB")
  /\ formatMemoryUnits (1 * 1048576) = "1024KB"
  /\ formatMemoryUnits (1 * 1024) = "1024B".
Proof.
  intros Hv. split; [|split; [|split; reflexivity]].
  - intros Hm. unfold formatMemoryUnits, fmt.Sprintf_d.
    change (1024 * 1024) with 1048576.
    destruct (Z.ltb_spec 1048576 (v * 1048576)); [|lia].
    rewrite int_facts.quo_div by (unfold maxInt in *; lia).
    now rewrite Z.div_mul by lia.
  - intros Hk. unfold formatMemoryUnits, fmt.Sprintf_d.
    change (1024 * 1024) with 1048576.
    destruct (Z.ltb_spec 1048576 (v * 1024)); [lia|].
    destruct (Z.ltb_spec 1024 (v * 1024)); [|lia].
    rewrite int_facts.quo_div by (unfold maxInt; lia).
    now rewrite Z.div_mul by lia.
Qed.

Lemma size_unit_kept_witness :
  formatMemoryUnits (64 * 1048576) = fmt.fmtInteger 64 ++ "MB".
Proof.
  destruct (size_unit_kept 64) as [H _]; [lia|].
  apply H. unfold maxInt. simpl. lia.
Defined.

Lemma step_config {R : Type} `{trace.FlightRecorder R} (s : Service R)
    (c : call) :
  period (step s c) = asked_period (period s) c
  /\ size (step s c) = asked_size (size s) c.
Proof.
  destruct c as [| | | |req]; cbn [step asked_period asked_size].
  - now split.
  - apply Start_config.
  - apply Stop_config.
  - apply Snapshot_config.
  - split; [apply Update_period | apply Update_size].
Qed.

(** X4: whatever calls are made and whether they succeed, the period
    and the size the service stores are those of the last request that
    carried them: no other operation changes them, and none loses
    them. *)
Theorem stored_is_last_asked {R : Type} `{trace.FlightRecorder R}
    (s : Service R) (calls : list call) :
  period (run s calls) = fold_left asked_period calls (period s)
  /\ size (run s calls) = fold_left asked_size calls (size s).
Proof.
  revert s. induction calls as [|c calls IH]; intros s; [now split|].
  cbn [run fold_left]. destruct (step_config s c) as [Ep En].
  rewrite <- Ep, <- En. apply (IH (step s c)).
Qed.

Module lower_facts.
Import strings_facts.

Lemma lowerByte_space (c : ascii) : spaceb c = true -> cli.lowerByte c = c.
Proof.
  unfold spaceb, asciiSpace, cli.lowerByte. intros E.
  apply andb_true_iff in E as [_ E].
  destruct (Z.leb_spec 65 (byte_of c)); [|reflexivity].
  destruct (Z.leb_spec (byte_of c) 90); [|reflexivity].
  repeat (apply orb_true_iff in E as [E|E]); apply Z.eqb_eq in E; lia.
Qed.

Lemma lowerByte_plain (c : ascii) :
  plain c = true -> plain (cli.lowerByte c) = true.
Proof.
  unfold cli.lowerByte.
  destruct (Z.leb_spec 65 (byte_of c)); [|trivial].
  destruct (Z.leb_spec (byte_of c) 90); [|trivial]. cbn [andb]. intros _.
  assert (E : byte_of (ascii_of_N (Z.to_N (byte_of c + 32))) = byte_of c + 32).
  { unfold byte_of at 1. rewrite N_ascii_embedding by lia. lia. }
  unfold plain, asciiSpace, RuneSelf. rewrite E.
  apply andb_true_iff. split; [apply Z.ltb_lt; lia|].
  apply negb_true_iff.
  repeat (apply orb_false_iff; split); apply Z.eqb_neq; lia.
Qed.

Lemma isASCII_app (a b : string) :
  cli.isASCII (a ++ b) = cli.isASCII a && cli.isASCII b.
Proof.
  induction a as [|c a IH]; cbn [append cli.isASCII]; [reflexivity|].
  now rewrite IH, andb_assoc.
Qed.

Lemma lowerASCII_app (a b : string) :
  cli.lowerASCII (a ++ b) = cli.lowerASCII a ++ cli.lowerASCII b.
Proof.
  induction a as [|c a IH]; cbn [append cli.lowerASCII]; [reflexivity|].
  now rewrite IH.
Qed.

Lemma space_lower (ws : string) :
  all_space ws = true -> cli.isASCII ws = true /\ cli.lowerASCII ws = ws.
Proof.
  induction ws as [|c ws IH]; cbn [all_space cli.isASCII cli.lowerASCII];
    [now split|].
  intros E. apply andb_true_iff in E as [Hc Hs].
  destruct (IH Hs) as [-> ->]. rewrite (lowerByte_space c Hc).
  unfold spaceb in Hc. apply andb_true_iff in Hc as [-> _]. now split.
Qed.

Lemma lastc_lower (s : string) :
  lastc (cli.lowerASCII s) = option_map cli.lowerByte (lastc s).
Proof.
  induction s as [|c s IH]; [reflexivity|].
  cbn [cli.lowerASCII]. destruct s as [|c' s]; [reflexivity|].
  exact IH.
Qed.

End lower_facts.

(** X19: the loop of the client recognises a command whatever the case
    of its ASCII letters and whatever ASCII white space stands around
    it: the line is handled as its text in lower case; a line of white
    space only does nothing. *)
Theorem Run_command_case_and_space (f g U : string -> string)
    (ws1 ws2 : string) (c : ascii) (t : string) (d : ascii) :
  all_space ws1 = true -> all_space ws2 = true ->
  cli.isASCII (String c t) = true ->
  plain c = true -> lastc (String c t) = Some d -> plain d = true ->
  cli.Run_command f g U (ws1 ++ String c t ++ ws2)
  = cli.Run_switch (cli.lowerASCII (String c t))
  /\ cli.Run_command f g U ws1 = cli.Continue.
Proof.
  intros H1 H2 Ha Hc Hl Hd.
  destruct (lower_facts.space_lower ws1 H1) as [A1 L1].
  destruct (lower_facts.space_lower ws2 H2) as [A2 L2].
  unfold cli.Run_command, cli.ToLower. split.
  - rewrite !lower_facts.isASCII_app, A1, A2, Ha. cbn [andb].
    rewrite !lower_facts.lowerASCII_app, L1, L2.
    cbn [cli.lowerASCII].
    rewrite (space_facts.TrimSpace_spaces f g ws1 ws2 (cli.lowerByte c)
               (cli.lowerASCII t) (cli.lowerByte d) H1 H2); [reflexivity | | |].
    + now apply lower_facts.lowerByte_plain.
    + change (String (cli.lowerByte c) (cli.lowerASCII t))
        with (cli.lowerASCII (String c t)).
      now rewrite lower_facts.lastc_lower, Hl.
    + now apply lower_facts.lowerByte_plain.
  - rewrite A1, L1, (space_facts.TrimSpace_blank f g ws1 H1). reflexivity.
Qed.

Lemma Run_command_case_and_space_witness :
  cli.Run_command no_trim no_trim no_trim
    ("  " ++ "Start" ++ String (ascii_of_nat 10) "")
  = cli.StartFlightRecorder.
Proof.
  destruct (Run_command_case_and_space no_trim no_trim no_trim "  "
              (String (ascii_of_nat 10) "") "S" "tart" "t"
              eq_refl eq_refl eq_refl eq_refl eq_refl eq_refl) as [E _].
  rewrite E. reflexivity.
Defined.

Lemma size_accepted_iff_witness :
  snd (parseUnitsBytes no_trim no_trim "9223372036854775808") <> None
  /\ fst (parseUnitsBytes no_trim no_trim "2KB") = 2048.
Proof.
  destruct (size_accepted_iff no_trim no_trim "9223372036854775808") as [[A _] _].
  destruct (size_accepted_iff no_trim no_trim "2KB") as [_ B].
  split.
  - intros E. destruct (A E) as [_ [_ Hmax]]. apply Hmax. reflexivity.
  - rewrite (B eq_refl). reflexivity.
Defined.
